(** * reduced.to: shortener and analytics controllers

    A shallow embedding of the request handlers of the backend
    ([ShortenerController], [AnalyticsController]), of the request DTO
    ([ShortenerDto]) and of the dashboard's form schema
    ([CreateLinkInputSchema]), with the properties the specification states
    about them.

    The handlers are [async] functions over injected services.  A handler is
    embedded as a function from a world to a promise state and a world; the
    world holds the state of everything outside the controller (database,
    cache, queue) together with the chronological list of the calls the
    handler made to its services and to the logger.  A string is the list of
    its characters, and its length their number. *)

From Stdlib Require Import ZArith Lia Ascii String.
From stdpp Require Import base option strings list gmap pretty.


(** ** Promises and asynchronous tasks *)

Module Async.

(** What can be thrown, and what a promise can be rejected with: any value.
    The handlers throw error objects, tagged here with their Nest exception
    class; the runtime throws a [TypeError]; an injected service can reject
    with an error object, with another value that is not an error
    ([Thrown], with the text its [message] property gives inside a template
    literal, "undefined" when it has none), or with [null] or [undefined]
    (a [reject()] without a reason). *)
Inductive Exn : Type :=
| BadRequestException (msg : string)
| UnauthorizedException (msg : string)
| NotFoundException (msg : string)
| Error (msg : string)
| TypeError (msg : string)
| Thrown (message_text : string)
| ThrownNull
| ThrownUndefined.

(** [err.message] inside a template literal: the text read, or, on [null]
    and [undefined], the [TypeError] that reading a property of them
    raises. *)
Definition message (e : Exn) : Exn + string :=
  match e with
  | BadRequestException m | UnauthorizedException m
  | NotFoundException m | Error m | TypeError m => inr m
  | Thrown text => inr text
  | ThrownNull =>
      inl (TypeError "Cannot read properties of null (reading 'message')")
  | ThrownUndefined =>
      inl (TypeError "Cannot read properties of undefined (reading 'message')")
  end.

(** The caught values whose message a catch block can read. *)
Definition has_message (e : Exn) : bool :=
  match message e with inr _ => true | inl _ => false end.

(** The state a promise is observed in: it has a value, it was rejected, or
    it never settles. *)
Inductive Promise (A : Type) : Type :=
| Fulfilled (a : A)
| Rejected (e : Exn)
| Pending.
Arguments Fulfilled {A} a.
Arguments Rejected {A} e.
Arguments Pending {A}.

Definition settled {A} (p : Promise A) : bool :=
  match p with Pending => false | _ => true end.

Section Task.
Context {W : Type}.

Definition Task (A : Type) : Type := W -> Promise A * W.

Definition ret {A} (a : A) : Task A := fun w => (Fulfilled a, w).

Definition throw {A} (e : Exn) : Task A := fun w => (Rejected e, w).

(** [await m] followed by the rest of the function body: the rest runs
    only once [m] is fulfilled. *)
Definition bind {A B} (m : Task A) (k : A -> Task B) : Task B :=
  fun w =>
    match m w with
    | (Fulfilled a, w') => k a w'
    | (Rejected e, w') => (Rejected e, w')
    | (Pending, w') => (Pending, w')
    end.

(** [try { await m } catch (err) { h err }] *)
Definition try_catch {A} (m : Task A) (h : Exn -> Task A) : Task A :=
  fun w =>
    match m w with
    | (Rejected e, w') => h e w'
    | other => other
    end.

(** How [Promise.all] settles from the states of two of its inputs: a
    rejection wins, then a pending input keeps the whole pending. *)
Definition all_join {A} (p : Promise A) (ps : Promise (list A))
  : Promise (list A) :=
  match p, ps with
  | Rejected e, _ => Rejected e
  | _, Rejected e => Rejected e
  | Pending, _ => Pending
  | _, Pending => Pending
  | Fulfilled a, Fulfilled l => Fulfilled (a :: l)
  end.

(** [Promise.all(xs.map(f))]: every call is started, in the order of the
    array and whatever happens to the others; their effects are recorded
    in that order. *)
Fixpoint promise_all {A} (ms : list (Task A)) : Task (list A) :=
  fun w =>
    match ms with
    | [] => (Fulfilled [], w)
    | m :: rest =>
        let '(p, w1) := m w in
        let '(ps, w2) := promise_all rest w1 in
        (all_join p ps, w2)
    end.
End Task.
Arguments Task : clear implicits.

Declare Scope task_scope.
Delimit Scope task_scope with task.
Notation "'let!' x ':=' m 'in' k" := (bind m (fun x => k))
  (at level 10, x name, m at level 200, k at level 200) : task_scope.

End Async.
Import Async.

(** JavaScript truthiness of an optional string ([undefined], [null] and the
    empty string are falsy) and of an optional boolean. *)
Definition truthy_string (s : option string) : option string :=
  match s with
  | Some v => if decide (v = "") then None else Some v
  | None => None
  end.

Definition truthy_bool (b : option bool) : bool := default false b.

(** ** Data of the shortener (part_000, part_001) *)

(** The [Link] row of the Prisma client, with the columns the handlers and
    the resolver read.  [utm] is a JSON object of string values, or null. *)
Module Link.
Record t : Type := mk {
  key : string;
  url : string;
  password : option string;
  utm : option (list (string * string));
  expirationTime : option Z;
}.
End Link.

(** [interface LinkResponse extends Partial<Link> { url; key }] as [findOne]
    builds it. *)
Module LinkResponse.
Record t : Type := mk { url : string; key : string }.
End LinkResponse.

(** [class ShortenerDto] (part_001): the body of a creation request once it
    is typed. *)
Module ShortenerDto.
Record t : Type := mk {
  url : string;
  key : option string;
  description : option string;
  expirationTime : option Z;
  password : option string;
  utm_ref : option string;
  utm_source : option string;
  utm_medium : option string;
  utm_campaign : option string;
  utm_term : option string;
  utm_content : option string;
  temporary : option bool;
}.

(** [shortenerDto.password = v] *)
Definition set_password (v : option string) (d : t) : t :=
  mk (url d) (key d) (description d) (expirationTime d) v (utm_ref d)
     (utm_source d) (utm_medium d) (utm_campaign d) (utm_term d)
     (utm_content d) (temporary d).

(** [const { password, ...rest } = shortenerDto]: [rest] has every property
    but [password]. *)
Definition rest_without_password (d : t) : t := set_password None d.
End ShortenerDto.

(** [UserContext], as far as the handlers read it. *)
Module UserContext.
Record t : Type := mk { id : string; verified : bool }.
End UserContext.

(** The express [Request], as far as the handlers read it:
    [req.headers.referer] and [req.user]. *)
Module Request.
Record t : Type := mk {
  referer : option string;
  user : option UserContext.t;
}.
End Request.

(** The object handed to [shortenerProducer.publish]:
    [{ ...clientDetails, referer, key, url }]. *)
Module ClickPayload.
Record t (ClientDetails : Type) : Type := mk {
  clientDetails : ClientDetails;
  referer : option string;
  key : string;
  url : string;
}.
Arguments mk {ClientDetails}.
Arguments clientDetails {ClientDetails}.
Arguments referer {ClientDetails}.
Arguments key {ClientDetails}.
Arguments url {ClientDetails}.
End ClickPayload.

(** [Promise<{ key: string }>], the result of a creation. *)
Module Created.
Record t : Type := mk { key : string }.
End Created.

Module BulkCreated.
Record t : Type := mk { keys : list string }.
End BulkCreated.

(** ** The shortener controller (part_000) *)

Module Shortener.
Section Controller.
(** [E] is the state of what lies behind the services (store, cache, queue);
    [ClientDetails] is the decorator's [IClientDetails], which the controller
    only passes on. *)
Context {E ClientDetails : Type}.

(** A call of a service method: its outcome depends on, and may change, the
    outside state. *)
Definition Service (A : Type) : Type := E -> Promise A * E.

Inductive Event : Type :=
| EGetLink (key : string)
| EVerifyPassword (hash password : string)
| EPublish (p : ClickPayload.t ClientDetails)
| ELoggerError (msg : string)
| ELoggerLog (msg : string)
| EIsSafeUrl (url : string)
| EIsKeyAvailable (key : string)
| EHashPassword (password : string)
| EIsEligibleToCreateLink (userId : string)
| ECreateShortenedUrl (dto : ShortenerDto.t)
| ECreateUsersShortenedUrl (user : UserContext.t) (dto : ShortenerDto.t)
| ECreateRandomShortenedUrl.

Record World : Type := mkWorld { env : E; trace : list Event }.

(** Calling a service records the call, then lets the service act on the
    outside state. *)
Definition call {A} (ev : Event) (svc : Service A) : Task World A :=
  fun w =>
    let '(p, e') := svc (env w) in
    (p, mkWorld e' (trace w ++ [ev])).

Definition logger_error (msg : string) : Task World unit :=
  fun w => (Fulfilled tt, mkWorld (env w) (trace w ++ [ELoggerError msg])).

Definition logger_log (msg : string) : Task World unit :=
  fun w => (Fulfilled tt, mkWorld (env w) (trace w ++ [ELoggerLog msg])).

Record ShortenerService : Type := {
  getLink : string -> Service (option Link.t);
  verifyPassword : string -> string -> Service bool;
  isKeyAvailable : string -> Service bool;
  hashPassword : string -> Service string;
  createShortenedUrl : ShortenerDto.t -> Service Created.t;
  createUsersShortenedUrl : UserContext.t -> ShortenerDto.t -> Service Created.t;
  createRandomShortenedUrl : Service string;
}.

Record ShortenerProducer : Type := {
  publish : ClickPayload.t ClientDetails -> Service unit;
}.

Record SafeUrlService : Type := { isSafeUrl : string -> Service bool }.

Record UsageService : Type := { isEligibleToCreateLink : string -> Service bool }.

(** [configService.getConfig()], as far as it is read. *)
Record AppConfigService : Type := { safeUrl_enable : bool }.

(** The constructor's parameters (the logger is the world's trace).
    [addUtmParams] is imported from the utils library. *)
Record ShortenerController : Type := {
  configService : AppConfigService;
  shortenerService : ShortenerService;
  shortenerProducer : ShortenerProducer;
  safeUrlService : SafeUrlService;
  usageService : UsageService;
  addUtmParams : string -> option (list (string * string)) -> string;
}.

Definition with_producer (p : ShortenerProducer) (c : ShortenerController)
  : ShortenerController :=
  {| configService := configService c;
     shortenerService := shortenerService c;
     shortenerProducer := p;
     safeUrlService := safeUrlService c;
     usageService := usageService c;
     addUtmParams := addUtmParams c |}.

Local Open Scope task_scope.

(** [@Get('random') random()] *)
Definition random (c : ShortenerController) : Task World string :=
  call ECreateRandomShortenedUrl (createRandomShortenedUrl (shortenerService c)).

(** Lines 50-58 of [findOne]: the lookup and the password gate.  [password]
    is the [pw] query parameter after its default [''] was applied. *)
Definition findOne_gate (c : ShortenerController) (key password : string)
  : Task World Link.t :=
  let! data := call (EGetLink key) (getLink (shortenerService c) key) in
  match data with
  | None => throw (BadRequestException "Shortened url is wrong or expired")
  | Some data =>
      match truthy_string (Link.password data) with
      | Some hash =>
          let! ok := call (EVerifyPassword hash password)
                     (verifyPassword (shortenerService c) hash password) in
          if ok then ret data
          else throw (UnauthorizedException "Incorrect password for this url!")
      | None => ret data
      end
  end.

Definition click_payload (clientDetails : ClientDetails) (req : Request.t)
    (data : Link.t) : ClickPayload.t ClientDetails :=
  ClickPayload.mk clientDetails (Request.referer req) (Link.key data)
                  (Link.url data).

(** The response of [findOne] (lines 71-74). *)
Definition link_response (c : ShortenerController) (data : Link.t)
  : LinkResponse.t :=
  LinkResponse.mk (addUtmParams c (Link.url data) (Link.utm data))
                  (Link.key data).

(** The catch block of [findOne] (line 68).  The argument of [logger.error]
    is evaluated first: where reading [err.message] raises, the catch block
    throws and nothing is logged. *)
Definition findOne_catch (err : Exn) : Task World unit :=
  match message err with
  | inr msg => logger_error ("Error while publishing shortened url: " +:+ msg)
  | inl raised => throw raised
  end.

(** Lines 60-74 of [findOne]: the awaited publication inside [try]/[catch],
    then the response. *)
Definition findOne_respond (c : ShortenerController)
    (clientDetails : ClientDetails) (req : Request.t) (data : Link.t)
  : Task World LinkResponse.t :=
  let p := click_payload clientDetails req data in
  let! _ := try_catch
         (call (EPublish p) (publish (shortenerProducer c) p))
         findOne_catch in
  ret (link_response c data).

(** The outcomes of the awaited publication after which [findOne] goes on to
    its response: fulfilled, or rejected with a value whose message the catch
    block can read. *)
Definition publication_passed (p : Promise unit) : bool :=
  match p with
  | Fulfilled _ => true
  | Rejected err => has_message err
  | Pending => false
  end.

(** [@Get(':key') findOne(clientDetails, key, password = '', req)] *)
Definition findOne (c : ShortenerController) (clientDetails : ClientDetails)
    (key : string) (pw : option string) (req : Request.t)
  : Task World LinkResponse.t :=
  let password := default "" pw in
  let! data := findOne_gate c key password in
  findOne_respond c clientDetails req data.

(** The safe-url check of [shortener] (lines 83-88). *)
Definition check_safe_url (c : ShortenerController) (url : string)
  : Task World unit :=
  if safeUrl_enable (configService c) then
    let! isSafeUrl := call (EIsSafeUrl url) (isSafeUrl (safeUrlService c) url) in
    if isSafeUrl then ret tt
    else throw (BadRequestException "This url is not safe to shorten!")
  else ret tt.

(** The availability pre-check of [shortener] (lines 90-95). *)
Definition check_key_available (c : ShortenerController)
    (key : option string) : Task World unit :=
  match truthy_string key with
  | Some k =>
      let! isKeyAvailable :=
        call (EIsKeyAvailable k) (isKeyAvailable (shortenerService c) k) in
      if isKeyAvailable then ret tt
      else throw (BadRequestException "This short link already exists")
  | None => ret tt
  end.

(** [user?.verified] *)
Definition verified_user (user : option UserContext.t) : option UserContext.t :=
  match user with
  | Some u => if UserContext.verified u then Some u else None
  | None => None
  end.

(** Lines 108-111: the password of the request is replaced by its hash. *)
Definition hash_dto_password (c : ShortenerController) (dto : ShortenerDto.t)
  : Task World ShortenerDto.t :=
  match truthy_string (ShortenerDto.password dto) with
  | Some pw =>
      let! hashed :=
        call (EHashPassword pw) (hashPassword (shortenerService c) pw) in
      ret (ShortenerDto.set_password (Some hashed) dto)
  | None => ret dto
  end.

(** [@Post() shortener(shortenerDto, req)] *)
Definition shortener (c : ShortenerController) (shortenerDto : ShortenerDto.t)
    (req : Request.t) : Task World Created.t :=
  let user := Request.user req in
  let! _ := check_safe_url c (ShortenerDto.url shortenerDto) in
  let! _ := check_key_available c (ShortenerDto.key shortenerDto) in
  if truthy_bool (ShortenerDto.temporary shortenerDto) then
    (* Temporary links cannot be password protected *)
    let rest := ShortenerDto.rest_without_password shortenerDto in
    call (ECreateShortenedUrl rest) (createShortenedUrl (shortenerService c) rest)
  else
    match verified_user user with
    | None =>
        throw (BadRequestException
                 "You must be verified in to create a shortened url")
    | Some user =>
        let! shortenerDto := hash_dto_password c shortenerDto in
        let! isEligibleToCreateLink :=
          call (EIsEligibleToCreateLink (UserContext.id user))
               (isEligibleToCreateLink (usageService c) (UserContext.id user)) in
        if isEligibleToCreateLink then
          let! _ := logger_log
            ("User " +:+ UserContext.id user
             +:+ " is creating a shortened url for "
             +:+ ShortenerDto.url shortenerDto) in
          call (ECreateUsersShortenedUrl user shortenerDto)
               (createUsersShortenedUrl (shortenerService c) user shortenerDto)
        else
          throw (BadRequestException
                   "You have reached your link creation limit")
    end.

(** The safe-url check of [bulk] (lines 128-134): every url is checked, and
    one unsafe url refuses the whole request. *)
Definition check_safe_urls (c : ShortenerController)
    (dtos : list ShortenerDto.t) : Task World unit :=
  if safeUrl_enable (configService c) then
    let! checks :=
      promise_all
        (map (fun dto =>
                call (EIsSafeUrl (ShortenerDto.url dto))
                     (isSafeUrl (safeUrlService c) (ShortenerDto.url dto)))
             dtos) in
    if forallb (fun b : bool => b) checks then ret tt
    else throw (BadRequestException "This url is not safe to shorten!")
  else ret tt.

(** [@Post('bulk') bulk(shortenerDto, req)] *)
Definition bulk (c : ShortenerController) (shortenerDto : list ShortenerDto.t)
    (req : Request.t) : Task World BulkCreated.t :=
  let user := Request.user req in
  let! _ := check_safe_urls c shortenerDto in
  match verified_user user with
  | None =>
      throw (BadRequestException
               "You must be verified in to create a shortened url")
  | Some user =>
      let! _ := logger_log
        ("User " +:+ UserContext.id user
         +:+ " is creating a bulk-shortened url for "
         +:+ pretty (length shortenerDto) +:+ " urls") in
      let! keys :=
        promise_all
          (map (fun dto =>
                  call (ECreateUsersShortenedUrl user dto)
                       (createUsersShortenedUrl (shortenerService c) user dto))
               shortenerDto) in
      ret (BulkCreated.mk (map Created.key keys))
  end.

(** A task only adds to the trace, and what it adds satisfies [Q]. *)
Definition adds_only {A} (Q : Event -> Prop) (t : Task World A) : Prop :=
  forall w, exists evs,
    trace (snd (t w)) = trace w ++ evs /\ Forall Q evs.

(** A temporary link is created from a request without password. *)
Definition temporary_without_password (ev : Event) : Prop :=
  match ev with
  | ECreateShortenedUrl dto => ShortenerDto.password dto = None
  | _ => True
  end.

(** The safe-url checks that [bulk] starts. *)
Definition safe_url_events (c : ShortenerController)
    (dtos : list ShortenerDto.t) : list Event :=
  if safeUrl_enable (configService c)
  then map (fun dto => EIsSafeUrl (ShortenerDto.url dto)) dtos
  else [].

(** The calls a creation request can be seen to make: the safe-url check and
    the creation of a user's link for the submitted items, and the log
    line. *)
Definition safe_url_or_create (dtos : list ShortenerDto.t)
    (user : option UserContext.t) (ev : Event) : Prop :=
  match ev with
  | EIsSafeUrl url => exists dto, dto ∈ dtos /\ url = ShortenerDto.url dto
  | ELoggerLog _ => True
  | ECreateUsersShortenedUrl u dto => verified_user user = Some u /\ dto ∈ dtos
  | _ => False
  end.

End Controller.

Arguments Service : clear implicits.
Arguments Event : clear implicits.
Arguments World : clear implicits.
Arguments ShortenerService : clear implicits.
Arguments ShortenerProducer : clear implicits.
Arguments SafeUrlService : clear implicits.
Arguments UsageService : clear implicits.
Arguments ShortenerController : clear implicits.
End Shortener.

(** ** The analytics controller (analytics.controller.ts) *)

(** A row of the link table, with the columns [findLink] filters on and
    selects. *)
Module LinkRow.
Record t : Type := mk {
  id : string;
  key : string;
  url : string;
  userId : option string;
}.
End LinkRow.

(** [select: { id: true, url: true }] *)
Module LinkSelect.
Record t : Type := mk { id : string; url : string }.
End LinkSelect.

Module Analytics.
Section Controller.
(** [E] is the state of the database; [Clicks], [Grouped] and [Total] are what
    the analytics service returns, which the controller only passes on. *)
Context {E Clicks Grouped Total : Type}.

Definition Service (A : Type) : Type := E -> Promise A * E.

(** [include?: Record<string, boolean>] *)
Definition Include : Type := option (list (string * bool)).

Inductive Event : Type :=
| ELinkFindUnique (key userId : string)
| EGetTotalVisits
| EGetClicksOverTime (linkId : string) (days : Z)
| EGetGroupedByField (linkId field : string) (days : Z) (include : Include)
| EGetTotalVisitsByKey (key userId : string).

Record World : Type := mkWorld { env : E; trace : list Event }.

Definition call {A} (ev : Event) (svc : Service A) : Task World A :=
  fun w =>
    let '(p, e') := svc (env w) in
    (p, mkWorld e' (trace w ++ [ev])).

Record AnalyticsService : Type := {
  getTotalVisits : Service Total;
  getClicksOverTime : string -> Z -> Service Clicks;
  getGroupedByField : string -> string -> Z -> Include -> Service Grouped;
  getTotalVisitsByKey : string -> string -> Service Total;
}.

(** The Prisma client, as far as it is used: the rows of the link table. *)
Record PrismaService : Type := { link_rows : E -> list LinkRow.t }.

Record AnalyticsController : Type := {
  analyticsService : AnalyticsService;
  prismaService : PrismaService;
}.

(** [where: { key, userId }] *)
Definition link_where (key userId : string) (r : LinkRow.t) : bool :=
  bool_decide (LinkRow.key r = key)
  && bool_decide (LinkRow.userId r = Some userId).

(** [prismaService.link.findUnique({ where: { key, userId },
    select: { id: true, url: true } })]: the row that matches, or null. *)
Definition link_findUnique (p : PrismaService) (key userId : string)
  : Service (option LinkSelect.t) :=
  fun e =>
    (Fulfilled
       ((fun r => LinkSelect.mk (LinkRow.id r) (LinkRow.url r))
          <$> List.find (link_where key userId) (link_rows p e)),
     e).

Record AnalyticsResponse : Type :=
  mkAnalyticsResponse { url : string; clicksOverTime : Clicks }.

Record GroupedResponse : Type :=
  mkGroupedResponse { grouped_url : string; data : Grouped }.

Local Open Scope task_scope.

(** [private async findLink(key, userId)] *)
Definition findLink (c : AnalyticsController) (key userId : string)
  : Task World LinkSelect.t :=
  let! link := call (ELinkFindUnique key userId)
                    (link_findUnique (prismaService c) key userId) in
  match link with
  | None => throw (NotFoundException "Link not found")
  | Some link => ret link
  end.

(** [private async getGroupedData(key, userId, days, field, include?)] *)
Definition getGroupedData (c : AnalyticsController) (key userId : string)
    (days : Z) (field : string) (include : Include)
  : Task World GroupedResponse :=
  let! link := findLink c key userId in
  let! data :=
    call (EGetGroupedByField (LinkSelect.id link) field days include)
         (getGroupedByField (analyticsService c) (LinkSelect.id link) field
                            days include) in
  ret (mkGroupedResponse (LinkSelect.url link) data).

(** [@Get('/total-clicks')] *)
Definition getTotalVisits_ (c : AnalyticsController) : Task World Total :=
  call EGetTotalVisits (getTotalVisits (analyticsService c)).

(** [@Get(':key')] *)
Definition getAnalytics (c : AnalyticsController) (key : string) (days : Z)
    (user : UserContext.t) : Task World AnalyticsResponse :=
  let! link := findLink c key (UserContext.id user) in
  let! data :=
    call (EGetClicksOverTime (LinkSelect.id link) days)
         (getClicksOverTime (analyticsService c) (LinkSelect.id link) days) in
  ret (mkAnalyticsResponse (LinkSelect.url link) data).

(** [@Get(':key/devices')] *)
Definition getDevices (c : AnalyticsController) (key : string) (days : Z)
    (user : UserContext.t) : Task World GroupedResponse :=
  getGroupedData c key (UserContext.id user) days "device" None.

(** [@Get(':key/os')] *)
Definition getOs (c : AnalyticsController) (key : string) (days : Z)
    (user : UserContext.t) : Task World GroupedResponse :=
  getGroupedData c key (UserContext.id user) days "os" None.

(** [@Get(':key/browsers')] *)
Definition getBrowsers (c : AnalyticsController) (key : string) (days : Z)
    (user : UserContext.t) : Task World GroupedResponse :=
  getGroupedData c key (UserContext.id user) days "browser" None.

(** [@Get(':key/countries')] *)
Definition getCountries (c : AnalyticsController) (key : string) (days : Z)
    (user : UserContext.t) : Task World GroupedResponse :=
  getGroupedData c key (UserContext.id user) days "country" None.

(** [@Get(':key/regions')] *)
Definition getRegions (c : AnalyticsController) (key : string) (days : Z)
    (user : UserContext.t) : Task World GroupedResponse :=
  getGroupedData c key (UserContext.id user) days "region" None.

(** [@Get(':key/cities')] *)
Definition getCities (c : AnalyticsController) (key : string) (days : Z)
    (user : UserContext.t) : Task World GroupedResponse :=
  getGroupedData c key (UserContext.id user) days "city"
                 (Some [("country", true)]).

(** [@Get(':key/total')] *)
Definition getTotalVisitsForLink (c : AnalyticsController) (key : string)
    (user : UserContext.t) : Task World Total :=
  call (EGetTotalVisitsByKey key (UserContext.id user))
       (getTotalVisitsByKey (analyticsService c) key (UserContext.id user)).

(** The routes that answer with grouped data, and the handler the router
    runs for each. *)
Inductive GroupedRoute : Type :=
| Devices | Os | Browsers | Countries | Regions | Cities.

Definition grouped_routes : list GroupedRoute :=
  [Devices; Os; Browsers; Countries; Regions; Cities].

Definition grouped_handler (r : GroupedRoute)
  : AnalyticsController -> string -> Z -> UserContext.t
    -> Task World GroupedResponse :=
  match r with
  | Devices => getDevices
  | Os => getOs
  | Browsers => getBrowsers
  | Countries => getCountries
  | Regions => getRegions
  | Cities => getCities
  end.

(** The dimension and the include that the handler of each route passes to
    [getGroupedData] (lines 26-56). *)
Definition grouped_query (r : GroupedRoute) : string * Include :=
  match r with
  | Devices => ("device", None)
  | Os => ("os", None)
  | Browsers => ("browser", None)
  | Countries => ("country", None)
  | Regions => ("region", None)
  | Cities => ("city", Some [("country", true)])
  end.

(** A row of the link table has the key and belongs to the user. *)
Definition owned_link (key userId : string) (r : LinkRow.t) : Prop :=
  LinkRow.key r = key /\ LinkRow.userId r = Some userId.

(** What a query for the key by the user may be seen to do: look the link
    up, and aggregate over the id of a link that has the key and belongs to
    the user. *)
Definition lookup_or_owned_aggregation (rows : list LinkRow.t)
    (key userId : string) (ev : Event) : Prop :=
  match ev with
  | ELinkFindUnique k u => k = key /\ u = userId
  | EGetClicksOverTime linkId _
  | EGetGroupedByField linkId _ _ _ =>
      exists r, r ∈ rows /\ owned_link key userId r /\ LinkRow.id r = linkId
  | _ => False
  end.

End Controller.

Arguments Service : clear implicits.
Arguments Event : clear implicits.
Arguments World : clear implicits.
Arguments AnalyticsService : clear implicits.
Arguments PrismaService : clear implicits.
Arguments AnalyticsController : clear implicits.
Arguments AnalyticsResponse : clear implicits.
Arguments GroupedResponse : clear implicits.
End Analytics.

(** ** Validation of a requested key *)

Module Validation.

(** class-validator's [@MaxLength(max)] and [@MinLength(min)] on a string. *)
Definition MaxLength (max : nat) (s : string) : bool :=
  (String.length s <=? max)%nat.

Definition MinLength (min : nat) (s : string) : bool :=
  (min <=? String.length s)%nat.

(** [@IsOptional()]: the other validators of the property are skipped when
    the value is missing. *)
Definition IsOptional {A} (validators : A -> bool) (v : option A) : bool :=
  match v with
  | None => true
  | Some x => validators x
  end.

(** The validators of [ShortenerDto.key] (part_001, lines 12-16):
    [@IsOptional() @IsString() @MaxLength(20) @MinLength(4)]; the value is a
    string by its type here. *)
Definition ShortenerDto_key (key : option string) : bool :=
  IsOptional (fun k => MaxLength 20 k && MinLength 4 k) key.

Definition in_range (lo hi a : ascii) : bool :=
  (nat_of_ascii lo <=? nat_of_ascii a)%nat
  && (nat_of_ascii a <=? nat_of_ascii hi)%nat.

(** The character class [[a-zA-Z0-9-]] of the form's regular expression. *)
Definition key_char (a : ascii) : bool :=
  in_range "a" "z" a || in_range "A" "Z" a || in_range "0" "9" a
  || Ascii.eqb a "-".

(** [/^[a-zA-Z0-9-]*$/.test(val)] *)
Definition key_regex (val : string) : bool :=
  forallb key_char (list_ascii_of_string val).

(** The refinement of [CreateLinkInputSchema.key] (link-modal.tsx,
    lines 51-61). *)
Definition key_refine (val : option string) : bool :=
  match val with
  | None => true
  | Some v =>
      if (String.length v =? 0)%nat then true
      else if (String.length v <? 4)%nat then false
      else true
  end.

(** [CreateLinkInputSchema.key] (link-modal.tsx, lines 44-65):
    [z.string().max(20).regex(...).optional().refine(...)]. *)
Definition CreateLinkInputSchema_key (key : option string) : bool :=
  match key with
  | None => true
  | Some val => (String.length val <=? 20)%nat && key_regex val
  end
  && key_refine key.


(** The format of a key in the words of the specification: 4 to 20
    characters, each of [[A-Za-z0-9-]]. *)
Definition spec_key_format (k : string) : bool :=
  (4 <=? String.length k)%nat && (String.length k <=? 20)%nat
  && forallb key_char (list_ascii_of_string k).

End Validation.

(** ** The validation of the body of a creation request *)

Module ValidationPipe.
Section Pipe.
Context {E ClientDetails : Type}.


End Pipe.
End ValidationPipe.

(** ** The links page of the dashboard (part_002) *)

Module LinksPage.

(** The url shown for a link (lines 272-277): [addUtmParams] is applied when
    the link has a UTM object. *)
Definition shown_url
    (addUtmParams : string -> option (list (string * string)) -> string)
    (url : string) (utm : option (list (string * string))) : string :=
  match utm with
  | Some params => addUtmParams url (Some params)
  | None => url
  end.

End LinksPage.

(** ** Parts of the repository that are not among the sources *)

Module SpecModel.

(** State of the link store: the links by key, and the clock. *)
Record LinkStore : Type := mkLinkStore {
  links : gmap string Link.t;
  now : Z;
}.

(** A link is past its expiry. *)
Definition expired (now : Z) (l : Link.t) : bool :=
  match Link.expirationTime l with
  | Some t => (t <? now)%Z
  | None => false
  end.

(** Modelled from the spec: [ShortenerService.getLink]
    (shortener.service.ts is not among the sources).  Section 4.2: resolution
    finds no link "if no active link matches the key, or the link is past
    expiresAt". *)
Definition getLink (key : string) : LinkStore -> Promise (option Link.t) * LinkStore :=
  fun s =>
    (Fulfilled
       (match links s !! key with
        | Some l => if expired (now s) l then None else Some l
        | None => None
        end),
     s).

(** The url already has a query string. *)
Definition has_query (url : string) : bool :=
  existsb (Ascii.eqb "?") (list_ascii_of_string url).

Definition append_param (url : string) (kv : string * string) : string :=
  url +:+ (if has_query url then "&" else "?") +:+ kv.1 +:+ "=" +:+ kv.2.

(** The parameters of the stored set that get appended: those present, with
    a value that is not empty. *)
Definition utm_to_append (utm : option (list (string * string)))
  : list (string * string) :=
  filter (fun kv => kv.2 <> "") (default [] utm).

(** Modelled from the spec: [addUtmParams] of the utils library (not among
    the sources).  Section 4.2: the destination "with UTM parameters appended
    per the link's stored UTM set - appended only for parameters present; no
    parameter appends an empty value". *)
Definition addUtmParams (url : string) (utm : option (list (string * string)))
  : string :=
  fold_left append_param (utm_to_append utm) url.

(** The text appended for a list of parameters: [first] before the first
    one, ["&"] before the others. *)
Fixpoint query_suffix (first : string) (ps : list (string * string)) : string :=
  match ps with
  | [] => ""
  | kv :: rest => first +:+ kv.1 +:+ "=" +:+ kv.2 +:+ query_suffix "&" rest
  end.

Definition first_separator (url : string) : string :=
  if has_query url then "&" else "?".

(** A persisted click fact (section 6), with its timestamp in days. *)
Module ClickFact.
Record t : Type := mk {
  linkId : string;
  timestamp : Z;
  device : string;
  os : string;
  browser : string;
  country : string;
  region : string;
  city : string;
}.
End ClickFact.

(** The value of a fact for a dimension, for the six dimensions of
    section 4.5. *)
Definition dimension (field : string) : option (ClickFact.t -> string) :=
  if decide (field = "device") then Some ClickFact.device
  else if decide (field = "os") then Some ClickFact.os
  else if decide (field = "browser") then Some ClickFact.browser
  else if decide (field = "country") then Some ClickFact.country
  else if decide (field = "region") then Some ClickFact.region
  else if decide (field = "city") then Some ClickFact.city
  else None.

(** A row of the grouped answer: the value of each grouped column, and the
    number of facts that have these values. *)
Record GroupedRow : Type := mkGroupedRow {
  columns : list (string * string);
  count : nat;
}.

Record AnalyticsDb : Type := mkAnalyticsDb {
  db_links : list LinkRow.t;
  db_facts : list ClickFact.t;
  db_now : Z;
}.

(** The columns a grouped query groups by: the dimension, then the included
    ones. *)
Definition group_columns (field : string) (include : option (list (string * bool)))
  : list string :=
  field :: (filter (fun kb => kb.2 = true) (default [] include)).*1.

Definition fact_columns (cols : list (string * (ClickFact.t -> string)))
    (f : ClickFact.t) : list (string * string) :=
  map (fun cg => (cg.1, cg.2 f)) cols.

Fixpoint add_to_group (key : list (string * string)) (rows : list GroupedRow)
  : list GroupedRow :=
  match rows with
  | [] => [mkGroupedRow key 1]
  | r :: rest =>
      if decide (columns r = key) then mkGroupedRow key (S (count r)) :: rest
      else r :: add_to_group key rest
  end.

Definition in_window (now days : Z) (linkId : string) (f : ClickFact.t) : bool :=
  bool_decide (ClickFact.linkId f = linkId)
  && (now - days <=? ClickFact.timestamp f)%Z
  && (ClickFact.timestamp f <=? now)%Z.

(** Modelled from the spec: [AnalyticsService.getGroupedByField]
    (analytics.service.ts is not among the sources).  Section 4.5: "dimension
    in {device, os, browser, country, region, city}; include optionally joins
    a secondary dimension (e.g., city grouped with country) so each row
    carries both values", over the facts of the link in the window. *)
Definition getGroupedByField (linkId field : string) (days : Z)
    (include : option (list (string * bool)))
  : AnalyticsDb -> Promise (list GroupedRow) * AnalyticsDb :=
  fun db =>
    match mapM (fun c => pair c <$> dimension c) (group_columns field include) with
    | None => (Rejected (Error "unknown dimension"), db)
    | Some cols =>
        (Fulfilled
           (fold_left (fun rows f => add_to_group (fact_columns cols f) rows)
                      (filter (fun f => in_window (db_now db) days linkId f = true)
                              (db_facts db))
                      []),
         db)
    end.

End SpecModel.

(** ** Concrete services and requests, to run the handlers on *)

Module Fixtures.
Import Shortener.

(** A link without password and with two stored UTM values, one empty. *)
Definition plain_link : Link.t :=
  Link.mk "abc1" "https://example.com"
          None (Some [("utm_source", "news"); ("utm_term", "")]) None.

(** A password-protected link. *)
Definition locked_link : Link.t :=
  Link.mk "lock" "https://example.com/private" (Some "hash:opensesame") None
          None.

(** A link that expired at time 10. *)
Definition old_link : Link.t :=
  Link.mk "old1" "https://example.com/old" None None (Some 10%Z).

Definition store : SpecModel.LinkStore :=
  SpecModel.mkLinkStore
    (<["abc1" := plain_link]> (<["lock" := locked_link]>
       (<["old1" := old_link]> ∅)))
    20.

(** A shortener service over the link store: [getLink] is the modelled
    resolver, a password verifies when the hash is ["hash:"] followed by it,
    a key is available when no link has it, and created links get the
    requested key or ["rnd001"]. *)
Definition shortenerService0 : ShortenerService SpecModel.LinkStore :=
  {| getLink := SpecModel.getLink;
     verifyPassword := fun hash pw s =>
       (Fulfilled (bool_decide (hash = "hash:" +:+ pw)), s);
     isKeyAvailable := fun k s =>
       (Fulfilled (bool_decide (SpecModel.links s !! k = None)), s);
     hashPassword := fun pw s => (Fulfilled ("hash:" +:+ pw), s);
     createShortenedUrl := fun dto s =>
       (Fulfilled (Created.mk (default "rnd001" (ShortenerDto.key dto))), s);
     createUsersShortenedUrl := fun _ dto s =>
       (Fulfilled (Created.mk (default "rnd001" (ShortenerDto.key dto))), s);
     createRandomShortenedUrl := fun s => (Fulfilled "rnd001", s) |}.

(** Producers whose publication succeeds, raises, and never completes. *)
Definition producer_ok : ShortenerProducer SpecModel.LinkStore string :=
  {| publish := fun _ s => (Fulfilled tt, s) |}.

Definition producer_down : ShortenerProducer SpecModel.LinkStore string :=
  {| publish := fun _ s => (Rejected (Error "queue unreachable"), s) |}.

Definition producer_stalled : ShortenerProducer SpecModel.LinkStore string :=
  {| publish := fun _ s => (Pending, s) |}.

(** Producers whose publication is rejected without an error object: with
    [undefined] (a [reject()] without a reason) and with [null]. *)
Definition producer_rejects_undefined
  : ShortenerProducer SpecModel.LinkStore string :=
  {| publish := fun _ s => (Rejected ThrownUndefined, s) |}.

Definition producer_rejects_null
  : ShortenerProducer SpecModel.LinkStore string :=
  {| publish := fun _ s => (Rejected ThrownNull, s) |}.

Definition controller0 : ShortenerController SpecModel.LinkStore string :=
  {| configService := {| safeUrl_enable := true |};
     shortenerService := shortenerService0;
     shortenerProducer := producer_ok;
     safeUrlService := {| isSafeUrl := fun url s =>
                            (Fulfilled (bool_decide (url <> "http://malware.test")), s) |};
     usageService := {| isEligibleToCreateLink := fun uid s =>
                          (Fulfilled (bool_decide (uid <> "u-full")), s) |};
     addUtmParams := SpecModel.addUtmParams |}.

Definition world0 : World SpecModel.LinkStore string := mkWorld store [].

Definition anonymous : Request.t := Request.mk None None.

Definition alice : UserContext.t := UserContext.mk "u-alice" true.

Definition from_alice : Request.t := Request.mk None (Some alice).

Definition dto_of_url (url : string) : ShortenerDto.t :=
  ShortenerDto.mk url None None None None None None None None None None None.

(** A request for a temporary link that carries a password. *)
Definition temporary_with_password : ShortenerDto.t :=
  ShortenerDto.mk "https://example.com/t" None None None (Some "secret")
                  None None None None None None (Some true).

(** A request for a key that is taken, with a password. *)
Definition taken_key_with_password : ShortenerDto.t :=
  ShortenerDto.mk "https://example.com/k" (Some "abc1") None None
                  (Some "secret") None None None None None None None.

(** A request for a user's link with a free key and a password. *)
Definition with_password : ShortenerDto.t :=
  ShortenerDto.mk "https://example.com/p" (Some "free1") None None
                  (Some "secret") None None None None None None None.

(** A verified user who has used up the quota. *)
Definition bob : UserContext.t := UserContext.mk "u-full" true.

Definition from_bob : Request.t := Request.mk None (Some bob).

(** A database with a link of alice and a link of bob, and three clicks on
    alice's link at time 20. *)
Definition db : SpecModel.AnalyticsDb :=
  SpecModel.mkAnalyticsDb
    [LinkRow.mk "id-1" "abc1" "https://example.com" (Some "u-alice");
     LinkRow.mk "id-2" "bobs" "https://example.org" (Some "u-full")]
    [SpecModel.ClickFact.mk "id-1" 18 "desktop" "linux" "firefox"
                            "FR" "IDF" "Paris";
     SpecModel.ClickFact.mk "id-1" 19 "mobile" "ios" "safari"
                            "US" "TX" "Paris";
     SpecModel.ClickFact.mk "id-1" 20 "mobile" "android" "chrome"
                            "FR" "IDF" "Paris"]
    20.

(** An analytics service over that database: the grouped query is the
    modelled one, the other answers are counts of facts. *)
Definition analyticsService0
  : Analytics.AnalyticsService SpecModel.AnalyticsDb nat
                               (list SpecModel.GroupedRow) nat :=
  {| Analytics.getTotalVisits := fun d =>
       (Fulfilled (length (SpecModel.db_facts d)), d);
     Analytics.getClicksOverTime := fun linkId days d =>
       (Fulfilled
          (length (filter (fun f => SpecModel.in_window (SpecModel.db_now d)
                                                        days linkId f = true)
                          (SpecModel.db_facts d))),
        d);
     Analytics.getGroupedByField := SpecModel.getGroupedByField;
     Analytics.getTotalVisitsByKey := fun key userId d =>
       (Fulfilled (length (SpecModel.db_facts d)), d) |}.

Definition analytics0
  : Analytics.AnalyticsController SpecModel.AnalyticsDb nat
                                  (list SpecModel.GroupedRow) nat :=
  {| Analytics.analyticsService := analyticsService0;
     Analytics.prismaService := {| Analytics.link_rows := SpecModel.db_links |} |}.

Definition analytics_world0 : Analytics.World SpecModel.AnalyticsDb :=
  Analytics.mkWorld db [].

End Fixtures.

(** ** Kinds of calls of the shortener controller *)

Module ShortenerCalls.
Section Calls.
Import Shortener.
Context {ClientDetails : Type}.

(** The call creates a link, temporary or of a user. *)
Definition is_creation (ev : Event ClientDetails) : bool :=
  match ev with
  | ECreateShortenedUrl _ | ECreateUsersShortenedUrl _ _ => true
  | _ => false
  end.

(** The call publishes a click event. *)
Definition is_publish (ev : Event ClientDetails) : bool :=
  match ev with
  | EPublish _ => true
  | _ => false
  end.

(** No call of the list creates a link, or the last one does and no other. *)
Definition ends_with_creation (evs : list (Event ClientDetails)) : Prop :=
  List.filter is_creation evs = []
  \/ exists pre ev,
       evs = pre ++ [ev] /\ is_creation ev = true
       /\ List.filter is_creation pre = [].

(** The creations that [shortener] may do for a request: of a temporary
    link, for a request with the temporary flag, from the request without
    its password; of a user's link, for a request without the flag, for the
    verified user of the request, from the request as it is or with its
    password replaced. *)
Definition creation_allowed (dto : ShortenerDto.t) (req : Request.t)
    (ev : Event ClientDetails) : Prop :=
  match ev with
  | ECreateShortenedUrl d =>
      truthy_bool (ShortenerDto.temporary dto) = true
      /\ d = ShortenerDto.rest_without_password dto
  | ECreateUsersShortenedUrl u d =>
      truthy_bool (ShortenerDto.temporary dto) = false
      /\ verified_user (Request.user req) = Some u
      /\ (d = dto
          \/ exists hashed, d = ShortenerDto.set_password (Some hashed) dto)
  | _ => True
  end.

(** The call does not create a link of the user [userId]. *)
Definition not_users_link_of (userId : string) (ev : Event ClientDetails)
  : Prop :=
  match ev with
  | ECreateUsersShortenedUrl u _ => UserContext.id u <> userId
  | _ => True
  end.

End Calls.
End ShortenerCalls.

(** ** The UTM fields of the request DTO (part_001, lines 30-59) *)

Module DtoFields.

(** [@IsOptional() @IsString() @MaxLength(100)] *)
Definition ShortenerDto_utm (v : option string) : bool :=
  Validation.IsOptional (Validation.MaxLength 100) v.

End DtoFields.

(** ** The link modal of the dashboard (link-modal.tsx) *)

Module LinkModal.

(** The submitted form, as the schema receives it: every field is a string
    or missing. *)
Module Form.
Record t : Type := mk {
  url : option string;
  key : option string;
  expirationTime : option string;
  expirationTimeToggle : option string;
  passwordProtection : option string;
  passwordProtectionToggle : option string;
  utmBuilderToggle : option string;
  utm_ref : option string;
  utm_source : option string;
  utm_medium : option string;
  utm_campaign : option string;
  utm_term : option string;
  utm_content : option string;
}.
End Form.

(** The form once the schema accepted it: [url] is a string. *)
Module Input.
Record t : Type := mk {
  url : string;
  key : option string;
  expirationTime : option string;
  expirationTimeToggle : option string;
  passwordProtection : option string;
  passwordProtectionToggle : option string;
  utmBuilderToggle : option string;
  utm_ref : option string;
  utm_source : option string;
  utm_medium : option string;
  utm_campaign : option string;
  utm_term : option string;
  utm_content : option string;
}.
End Input.

(** The body of the creation request (lines 130-143). *)
Module Body.
Record t : Type := mk {
  url : string;
  key : option string;
  expirationTime : option string;
  password : option string;
  utm_ref : option string;
  utm_source : option string;
  utm_medium : option string;
  utm_campaign : option string;
  utm_term : option string;
  utm_content : option string;
}.
End Body.

(** JavaScript truthiness of an optional string, as a boolean. *)
Definition truthy (v : option string) : bool :=
  match truthy_string v with
  | Some _ => true
  | None => false
  end.

(** [url] of the schema (lines 34-43): a string of at least one character
    that matches the url pattern; the pattern is a parameter. *)
Definition schema_url (url_pattern : string -> bool) (url : option string)
  : option string :=
  match url with
  | Some u => if (1 <=? String.length u)%nat && url_pattern u then Some u else None
  | None => None
  end.

(** [passwordProtection] of the schema (lines 68-76):
    [z.string().min(6).max(25).optional()]. *)
Definition schema_password (v : option string) : bool :=
  match v with
  | Some s => (6 <=? String.length s)%nat && (String.length s <=? 25)%nat
  | None => true
  end.

(** A UTM field of the schema (lines 79-84): [z.string().max(100).optional()]. *)
Definition schema_utm (v : option string) : bool :=
  match v with
  | Some s => (String.length s <=? 100)%nat
  | None => true
  end.

(** [toggle && !value]: the condition of the two refinements of the schema
    (lines 86-93) and of the two checks of the action (lines 118-124). *)
Definition toggled_without_value (toggle value : option string) : bool :=
  truthy toggle && negb (truthy value).

(** [CreateLinkInputSchema] (lines 32-93): the parsed form when every field
    and both refinements pass, nothing otherwise. *)
Definition CreateLinkInputSchema (url_pattern : string -> bool) (f : Form.t)
  : option Input.t :=
  match schema_url url_pattern (Form.url f) with
  | Some url =>
      if Validation.CreateLinkInputSchema_key (Form.key f)
         && schema_password (Form.passwordProtection f)
         && schema_utm (Form.utm_ref f)
         && schema_utm (Form.utm_source f)
         && schema_utm (Form.utm_medium f)
         && schema_utm (Form.utm_campaign f)
         && schema_utm (Form.utm_term f)
         && schema_utm (Form.utm_content f)
         && negb (toggled_without_value (Form.expirationTimeToggle f)
                                        (Form.expirationTime f))
         && negb (toggled_without_value (Form.passwordProtectionToggle f)
                                        (Form.passwordProtection f))
      then
        Some (Input.mk url (Form.key f) (Form.expirationTime f)
                       (Form.expirationTimeToggle f)
                       (Form.passwordProtection f)
                       (Form.passwordProtectionToggle f)
                       (Form.utmBuilderToggle f) (Form.utm_ref f)
                       (Form.utm_source f) (Form.utm_medium f)
                       (Form.utm_campaign f) (Form.utm_term f)
                       (Form.utm_content f))
      else None
  | None => None
  end.

(** The field errors that the action collects itself (lines 116-124). *)
Definition fieldErrors (i : Input.t) : list (string * list string) :=
  (if toggled_without_value (Input.expirationTimeToggle i)
                            (Input.expirationTime i)
   then [("expirationTime", ["Please select a date for your link to expire."])]
   else [])
  ++ (if toggled_without_value (Input.passwordProtectionToggle i)
                               (Input.passwordProtection i)
      then [("passwordProtection", ["Please enter a password for your link."])]
      else []).

(** [...(toggle && value && { field: value })] *)
Definition when_toggled (toggle value : option string) : option string :=
  if truthy toggle then truthy_string value else None.

(** The request body (lines 130-143).  [normalizeUrl] and the conversion of
    the date to milliseconds are parameters. *)
Definition request_body (normalizeUrl date_to_ms : string -> string)
    (i : Input.t) : Body.t :=
  Body.mk (normalizeUrl (Input.url i))
          (truthy_string (Input.key i))
          (date_to_ms <$> truthy_string (Input.expirationTime i))
          (truthy_string (Input.passwordProtection i))
          (when_toggled (Input.utmBuilderToggle i) (Input.utm_ref i))
          (when_toggled (Input.utmBuilderToggle i) (Input.utm_source i))
          (when_toggled (Input.utmBuilderToggle i) (Input.utm_medium i))
          (when_toggled (Input.utmBuilderToggle i) (Input.utm_campaign i))
          (when_toggled (Input.utmBuilderToggle i) (Input.utm_term i))
          (when_toggled (Input.utmBuilderToggle i) (Input.utm_content i)).

(** [new Date(expirationTime).getTime().toString()] (line 133): the time
    value of the date in decimal digits, or "NaN" for a string that is not a
    date.  How a string is read as a date is a parameter, with [None] for a
    string that is no date. *)
Definition getTime_toString (getTime : string -> option Z) (s : string)
  : string :=
  match getTime s with
  | Some ms => pretty ms
  | None => "NaN"
  end.

(** What the action does with a parsed form before it sends anything
    (lines 116-143): it fails with status 400 and its field errors, or it has
    the body of the request. *)
Inductive Prepared : Type :=
| Fail400 (errors : list (string * list string))
| Send (body : Body.t).

Definition useCreateLink_prepare (normalizeUrl date_to_ms : string -> string)
    (i : Input.t) : Prepared :=
  match fieldErrors i with
  | [] => Send (request_body normalizeUrl date_to_ms i)
  | errors => Fail400 errors
  end.

(** [action.value]: undefined before a submission; afterwards an object that
    has a [fieldErrors] property (a refused form) or has none (the result of
    a creation, or of a failed request). *)
Inductive ActionValue : Type :=
| NoValue
| Value (fieldErrors : option (gmap string (list string))).

(** The state that [toggleOption] and [clearValues] work on: the fields of
    [inputValue.value] (a missing key reads as [undefined]) and
    [action.value]. *)
Record ModalState : Type := mkModalState {
  inputValue : gmap string string;
  actionValue : ActionValue;
}.

(** How a handler of the modal ends: normally, or by a [TypeError], with the
    state it has reached. *)
Inductive Completion (A : Type) : Type :=
| Normal (a : A)
| TypeError (a : A).
Arguments Normal {A} a.
Arguments TypeError {A} a.

(** [inputValue.value[key] = resetValue] *)
Definition set_input (key : string) (v : option string)
    (m : gmap string string) : gmap string string :=
  match v with
  | Some s => <[key := s]> m
  | None => delete key m
  end.

(** The body of the [forEach] of [toggleOption] (lines 236-239) for one
    key.  [action.value?.fieldErrors![key]] is undefined when [action.value]
    is, and raises when [action.value] is an object without [fieldErrors];
    an array of messages, even empty, is truthy. *)
Definition reset_key (resetValue : option string) (st : ModalState)
    (key : string) : Completion ModalState :=
  let st1 := mkModalState (set_input key resetValue (inputValue st))
                          (actionValue st) in
  match actionValue st1 with
  | NoValue => Normal st1
  | Value None => TypeError st1
  | Value (Some errors) =>
      match errors !! key with
      | Some _ =>
          Normal (mkModalState (inputValue st1)
                               (Value (Some (<[key := []]> errors))))
      | None => Normal st1
      end
  end.

(** [resetKeys.forEach(...)]: a raise ends the loop. *)
Fixpoint reset_keys (resetValue : option string) (keys : list string)
    (st : ModalState) : Completion ModalState :=
  match keys with
  | [] => Normal st
  | key :: rest =>
      match reset_key resetValue st key with
      | Normal st1 => reset_keys resetValue rest st1
      | TypeError st1 => TypeError st1
      end
  end.

(** [toggleOption(signal, resetKeys, resetValue)] (lines 231-242): the new
    value of the signal, and how the handler ends. *)
Definition toggleOption (signal : bool) (resetKeys : option (list string))
    (resetValue : option string) (st : ModalState)
  : bool * Completion ModalState :=
  let signal' := negb signal in
  (signal',
   match signal', resetKeys with
   | false, Some keys => reset_keys resetValue keys st
   | _, _ => Normal st
   end).

End LinkModal.

(** ** The list of links of the dashboard (part_002) *)

Module LinksView.
Local Open Scope Z_scope.

(** A link as the links endpoint returns it (lines 38-43). *)
Module LinkItem.
Record t : Type := mk {
  id : string;
  key : string;
  url : string;
  createdAt : string;
  clicks : Z;
  expirationTime : option string;
  utm : option (list (string * string));
}.
End LinkItem.

(** A JavaScript [Map] from keys to links: the entries in insertion
    order. *)
Definition LinksMap : Type := list (string * LinkItem.t).

(** [map.has(k)] *)
Definition map_has (k : string) (m : LinksMap) : bool :=
  existsb (fun kv => bool_decide (kv.1 = k)) m.

(** [map.get(k)] *)
Fixpoint map_get (k : string) (m : LinksMap) : option LinkItem.t :=
  match m with
  | [] => None
  | (k', v) :: rest => if decide (k' = k) then Some v else map_get k rest
  end.

(** [map.set(k, v)]: the value of an existing key is replaced where it
    stands, a new key is added at the end. *)
Fixpoint map_set (k : string) (v : LinkItem.t) (m : LinksMap) : LinksMap :=
  match m with
  | [] => [(k, v)]
  | (k', v') :: rest =>
      if decide (k' = k) then (k, v) :: rest
      else (k', v') :: map_set k v rest
  end.

(** The signals of the page (lines 27-43). *)
Record State : Type := mkState {
  page : Z;
  limit : Z;
  total : Z;
  filter : string;
  refetch : Z;
  isLoadingData : bool;
  linksMap : LinksMap;
}.

(** The answer of the links endpoint. *)
Record Page : Type := mkPage { data : list LinkItem.t; data_total : Z }.

(** [data.data.forEach((link) => linksMap.value.set(link.key, link))] *)
Definition set_all (links : list LinkItem.t) (m : LinksMap) : LinksMap :=
  fold_left (fun m link => map_set (LinkItem.key link) link m) links m.

(** [data.data.forEach((link) => { if (!linksMap.value.has(link.key))
    linksMap.value.set(link.key, link) })] *)
Definition add_missing (links : list LinkItem.t) (m : LinksMap) : LinksMap :=
  fold_left (fun m link =>
               if map_has (LinkItem.key link) m then m
               else map_set (LinkItem.key link) link m)
            links m.

(** The task up to the request (lines 55-64). *)
Definition before_fetch (st : State) : State :=
  mkState (if decide (refetch st = 0) then page st else 1)
          (limit st) (total st) (filter st) (refetch st) true (linksMap st).

(** The list is loaded again from its first page. *)
Definition reloads (st : State) : bool :=
  (negb (bool_decide (filter st = "")) && bool_decide (page st = 1))
  || negb (bool_decide (refetch st = 0)).

(** The task once the request answered (lines 75-88). *)
Definition after_fetch (p : Page) (st : State) : State :=
  if reloads st then
    mkState (page st) (limit st) (data_total p) (filter st) 0 false
            (set_all (data p) [])
  else
    mkState (page st) (limit st) (data_total p) (filter st) (refetch st) false
            (add_missing (data p) (linksMap st)).

(** [Array.from(linksMap.value.values())] *)
Definition linksArray (st : State) : list LinkItem.t := (linksMap st).*2.

(** [Math.ceil(total / limit)] for a positive [limit]. *)
Definition maxPages (st : State) : Z := (total st + limit st - 1) / limit st.

(** [checkScroll] (lines 104-115), for the scroll position of the container. *)
Definition checkScroll (scrollTop clientHeight scrollHeight : Z) (st : State)
  : State :=
  if bool_decide (maxPages st = 0) || (maxPages st - 1 <? page st) then st
  else if (scrollTop + clientHeight <? scrollHeight - 120) then st
  else mkState (page st + 1) (limit st) (total st) (filter st) (refetch st)
               (isLoadingData st) (linksMap st).

(** The urls read from an uploaded sheet (lines 191-193): the first cell of
    each row, kept when it is a valid url, normalized.  A row is an array of
    cells or a single cell; [isValidUrl] and [normalizeUrl] are
    parameters. *)
Definition first_cell {Cell} (row : list Cell + Cell) : option Cell :=
  match row with
  | inl cells => head cells
  | inr cell => Some cell
  end.

Definition mappedData {Cell} (isValidUrl : option Cell -> bool)
    (normalizeUrl : option Cell -> string) (rows : list (list Cell + Cell))
  : list string :=
  map normalizeUrl (List.filter isValidUrl (map first_cell rows)).

(** The body of the bulk request (line 152):
    [urls.map((url) => ({ url }))]. *)
Definition bulk_body (urls : list string) : list ShortenerDto.t :=
  map (fun url =>
         ShortenerDto.mk url None None None None None None None None None
                         None None)
      urls.

(** The entries of the map have distinct keys, and each link is stored
    under its own key. *)
Definition well_keyed (m : LinksMap) : Prop :=
  NoDup m.*1 /\ Forall (fun kv => kv.1 = LinkItem.key kv.2) m.

End LinksView.

(** ** [debounce] (part_002) *)

Module Debounce.
Section Debounced.
Context {Args : Type}.

(** The state of a debounced function: the arguments of the pending timer,
    if there is one ([timeoutId]), and the calls of [func] so far. *)
Record State : Type := mkState {
  timeoutId : option Args;
  invoked : list Args;
}.

(** What happens to a debounced function: it is called, or the pending timer
    fires. *)
Inductive Event : Type :=
| Call (args : Args)
| Fire.

(** A call clears the pending timer and sets one for its own arguments; the
    timer that fires runs [later]: it resets [timeoutId] and calls [func]. *)
Definition step (st : State) (ev : Event) : State :=
  match ev with
  | Call args => mkState (Some args) (invoked st)
  | Fire =>
      match timeoutId st with
      | Some args => mkState None (invoked st ++ [args])
      | None => st
      end
  end.

Definition run (evs : list Event) (st : State) : State :=
  fold_left step evs st.

Definition initial : State := mkState None [].

Definition is_fire (ev : Event) : bool :=
  match ev with
  | Fire => true
  | Call _ => false
  end.

End Debounced.
Arguments State : clear implicits.
Arguments Event : clear implicits.
End Debounce.

(** ** More concrete services *)

Module MoreFixtures.
Import Shortener Fixtures.

(** A shortener service whose creation of a user's link fails, like a unique
    constraint, when the requested key is taken. *)
Definition shortenerService_unique : ShortenerService SpecModel.LinkStore :=
  {| getLink := getLink shortenerService0;
     verifyPassword := verifyPassword shortenerService0;
     isKeyAvailable := isKeyAvailable shortenerService0;
     hashPassword := hashPassword shortenerService0;
     createShortenedUrl := createShortenedUrl shortenerService0;
     createUsersShortenedUrl := fun _ dto s =>
       match ShortenerDto.key dto with
       | Some k =>
           if bool_decide (SpecModel.links s !! k = None)
           then (Fulfilled (Created.mk k), s)
           else (Rejected (Error "Unique constraint failed on the fields: (`key`)"), s)
       | None => (Fulfilled (Created.mk "rnd001"), s)
       end;
     createRandomShortenedUrl := createRandomShortenedUrl shortenerService0 |}.

Definition controller_unique : ShortenerController SpecModel.LinkStore string :=
  {| configService := configService controller0;
     shortenerService := shortenerService_unique;
     shortenerProducer := shortenerProducer controller0;
     safeUrlService := safeUrlService controller0;
     usageService := usageService controller0;
     addUtmParams := addUtmParams controller0 |}.

(** A filled form of the link modal: a key, a password with its toggle, and
    UTM fields with the builder switched off. *)
Definition form0 : LinkModal.Form.t :=
  LinkModal.Form.mk (Some "example.com/docs") (Some "my-docs") None None
                    (Some "s3cret!") (Some "on") None (Some "newsletter")
                    None None None None None.

Definition input0 : LinkModal.Input.t :=
  LinkModal.Input.mk "example.com/docs" (Some "my-docs") None None
                     (Some "s3cret!") (Some "on") None (Some "newsletter")
                     None None None None None.

(** The state of the modal with two UTM fields filled in, after a refused
    form, and after a failed request. *)
Definition modal_refused : LinkModal.ModalState :=
  LinkModal.mkModalState
    {["utm_ref" := "newsletter"; "utm_source" := "mail"; "url" := "example.com"]}
    (LinkModal.Value (Some {["utm_ref" := ["Referral (ref) must be at most 100 characters long"]]})).

Definition modal_failed : LinkModal.ModalState :=
  LinkModal.mkModalState
    {["utm_ref" := "newsletter"; "utm_source" := "mail"; "url" := "example.com"]}
    (LinkModal.Value None).

(** Links of the dashboard. *)
Definition item (id key url : string) : LinksView.LinkItem.t :=
  LinksView.LinkItem.mk id key url "2024-01-01" 0 None None.

Definition links_state0 : LinksView.State :=
  LinksView.mkState 2 10 25 "" 0 true
    [("abc1", item "id-1" "abc1" "https://example.com");
     ("bobs", item "id-2" "bobs" "https://example.org")].

Definition page2 : LinksView.Page :=
  LinksView.mkPage
    [item "id-2b" "bobs" "https://example.org/changed";
     item "id-3" "cccc" "https://example.net"]
    25.


End MoreFixtures.

(** * Properties *)

(** ** Resolution: [findOne] *)

Section FindOne.
Import Shortener.
Context {E ClientDetails : Type}.
Implicit Types (c : ShortenerController E ClientDetails).
Implicit Types (w : World E ClientDetails).
Implicit Types (cd : ClientDetails) (req : Request.t) (data : Link.t).

Lemma call_outcome {A} (ev : Event ClientDetails) (svc : Service E A) w p e' :
  svc (env w) = (p, e') ->
  call ev svc w = (p, mkWorld e' (trace w ++ [ev])).
Proof. intros H. unfold call. now rewrite H. Qed.

(** [findOne] is its gate followed, when the gate lets the link through, by
    the publication and the response. *)
Lemma findOne_after_gate c cd key pw req w data w1 :
  findOne_gate c key (default "" pw) w = (Fulfilled data, w1) ->
  findOne c cd key pw req w = findOne_respond c cd req data w1.
Proof. intros H. unfold findOne, bind. now rewrite H. Qed.

Lemma findOne_gate_rejected c cd key pw req w e w1 :
  findOne_gate c key (default "" pw) w = (Rejected e, w1) ->
  findOne c cd key pw req w = (Rejected e, w1).
Proof. intros H. unfold findOne, bind. now rewrite H. Qed.

Lemma findOne_gate_pending c cd key pw req w w1 :
  findOne_gate c key (default "" pw) w = (Pending, w1) ->
  findOne c cd key pw req w = (Pending, w1).
Proof. intros H. unfold findOne, bind. now rewrite H. Qed.

(** The gate does not involve the producer. *)
Lemma findOne_gate_with_producer c p key password :
  findOne_gate (with_producer p c) key password = findOne_gate c key password.
Proof. reflexivity. Qed.

(** What [findOne_respond] does, by the state of the publication. *)
Lemma findOne_respond_published c cd req data w u e' :
  publish (shortenerProducer c) (click_payload cd req data) (env w)
    = (Fulfilled u, e') ->
  findOne_respond c cd req data w
    = (Fulfilled (link_response c data),
       mkWorld e' (trace w ++ [EPublish (click_payload cd req data)])).
Proof.
  intros H. unfold findOne_respond, bind, try_catch, call. now rewrite H.
Qed.

(** A rejection whose message can be read is logged, and the response
    follows. *)
Lemma findOne_respond_publish_failed c cd req data w err e' msg :
  publish (shortenerProducer c) (click_payload cd req data) (env w)
    = (Rejected err, e') ->
  message err = inr msg ->
  findOne_respond c cd req data w
    = (Fulfilled (link_response c data),
       mkWorld e'
         ((trace w ++ [EPublish (click_payload cd req data)])
          ++ [ELoggerError ("Error while publishing shortened url: " +:+ msg)])).
Proof.
  intros H Hmsg.
  unfold findOne_respond, bind, try_catch, call, findOne_catch.
  now rewrite H, Hmsg.
Qed.

(** A rejection with [null] or [undefined] makes the catch block raise:
    nothing is logged and there is no response. *)
Lemma findOne_respond_catch_raised c cd req data w err e' raised :
  publish (shortenerProducer c) (click_payload cd req data) (env w)
    = (Rejected err, e') ->
  message err = inl raised ->
  findOne_respond c cd req data w
    = (Rejected raised,
       mkWorld e' (trace w ++ [EPublish (click_payload cd req data)])).
Proof.
  intros H Hmsg.
  unfold findOne_respond, bind, try_catch, call, findOne_catch.
  now rewrite H, Hmsg.
Qed.

Lemma findOne_respond_publish_pending c cd req data w e' :
  publish (shortenerProducer c) (click_payload cd req data) (env w)
    = (Pending, e') ->
  findOne_respond c cd req data w
    = (Pending,
       mkWorld e' (trace w ++ [EPublish (click_payload cd req data)])).
Proof.
  intros H. unfold findOne_respond, bind, try_catch, call. now rewrite H.
Qed.

Lemma has_message_text (err : Exn) :
  has_message err = true -> exists msg, message err = inr msg.
Proof.
  unfold has_message. destruct (message err) as [raised|msg]; [discriminate|].
  now exists msg.
Qed.

Lemma has_message_raised (err : Exn) :
  has_message err = false -> exists raised, message err = inl raised.
Proof.
  unfold has_message. destruct (message err) as [raised|msg]; [|discriminate].
  now exists raised.
Qed.

(** A fulfilled [findOne] went through the gate. *)
Lemma findOne_fulfilled_inv c cd key pw req w r w' :
  findOne c cd key pw req w = (Fulfilled r, w') ->
  exists data w1,
    findOne_gate c key (default "" pw) w = (Fulfilled data, w1)
    /\ findOne_respond c cd req data w1 = (Fulfilled r, w').
Proof.
  unfold findOne, bind.
  destruct (findOne_gate c key (default "" pw) w) as [[data|e|] w1] eqn:Hg;
    intros H; try discriminate.
  now exists data, w1.
Qed.

Lemma findOne_respond_fulfilled_inv c cd req data w r w' :
  findOne_respond c cd req data w = (Fulfilled r, w') ->
  r = link_response c data.
Proof.
  unfold findOne_respond, bind, try_catch, call, findOne_catch, logger_error,
    throw, ret.
  destruct (publish _ _ _) as [[u|e|] e']; simpl; intros H;
    [now inversion H| |discriminate].
  destruct (message e); simpl in H; [discriminate | now inversion H].
Qed.

(** Rejections of the publication whose message can be read are contained:
    for a producer whose [publish] always rejects with such a value and one
    whose [publish] always succeeds, every request that the second answers
    with a result [r] is answered with the same [r] by the first, the only
    difference in the trace being the logged error; and whenever the request
    fails with the rejecting producer, it is the lookup or the password gate
    that failed it. *)
Lemma findOne_contains_rejection_with_message
    c (p_ok p_bad : ShortenerProducer E ClientDetails) cd key pw req w :
  (forall p e, exists u e', publish p_ok p e = (Fulfilled u, e')) ->
  (forall p e, exists err e',
      publish p_bad p e = (Rejected err, e') /\ has_message err = true) ->
  (forall r w_ok,
     findOne (with_producer p_ok c) cd key pw req w = (Fulfilled r, w_ok) ->
     exists msg w_bad,
       findOne (with_producer p_bad c) cd key pw req w = (Fulfilled r, w_bad)
       /\ trace w_bad
          = trace w_ok
            ++ [ELoggerError ("Error while publishing shortened url: " +:+ msg)])
  /\ (forall e w',
        findOne (with_producer p_bad c) cd key pw req w = (Rejected e, w') ->
        findOne_gate c key (default "" pw) w = (Rejected e, w')).
Proof.
  intros Hok Hbad. split.
  - intros r w_ok Hrun.
    apply findOne_fulfilled_inv in Hrun as (data & w1 & Hgate & Hresp).
    rewrite findOne_gate_with_producer in Hgate.
    destruct (Hok (click_payload cd req data) (env w1)) as (u & e_ok & Hp_ok).
    destruct (Hbad (click_payload cd req data) (env w1))
      as (err & e_bad & Hp_bad & Hreadable).
    apply has_message_text in Hreadable as [msg Hmsg].
    rewrite (findOne_respond_published (with_producer p_ok c) _ _ _ _ _ _ Hp_ok)
      in Hresp.
    inversion Hresp; subst r w_ok; clear Hresp.
    exists msg, (mkWorld e_bad
                   ((trace w1 ++ [EPublish (click_payload cd req data)])
                    ++ [ELoggerError
                          ("Error while publishing shortened url: " +:+ msg)])).
    split; [|reflexivity].
    rewrite (findOne_after_gate (with_producer p_bad c) cd key pw req w data w1)
      by exact Hgate.
    now rewrite (findOne_respond_publish_failed (with_producer p_bad c)
                   _ _ _ _ _ _ _ Hp_bad Hmsg).
  - intros e w' Hrun.
    destruct (findOne_gate c key (default "" pw) w) as [[data| e0 |] w1] eqn:Hgate.
    + rewrite (findOne_after_gate (with_producer p_bad c) cd key pw req w data w1)
        in Hrun by exact Hgate.
      destruct (Hbad (click_payload cd req data) (env w1))
        as (err & e_bad & Hp_bad & Hreadable).
      apply has_message_text in Hreadable as [msg Hmsg].
      rewrite (findOne_respond_publish_failed (with_producer p_bad c)
                 _ _ _ _ _ _ _ Hp_bad Hmsg) in Hrun.
      discriminate.
    + rewrite (findOne_gate_rejected (with_producer p_bad c) cd key pw req w e0 w1)
        in Hrun by exact Hgate.
      now inversion Hrun.
    + rewrite (findOne_gate_pending (with_producer p_bad c) cd key pw req w w1)
        in Hrun by exact Hgate.
      discriminate.
Qed.

(** A rejection of the publication with [null] or [undefined] is not
    contained: the request that passed the gate is rejected with what the
    catch block raised, and nothing is logged. *)
Lemma findOne_fails_without_message c cd key pw req w data w1 err e' :
  findOne_gate c key (default "" pw) w = (Fulfilled data, w1) ->
  publish (shortenerProducer c) (click_payload cd req data) (env w1)
    = (Rejected err, e') ->
  has_message err = false ->
  exists raised,
    message err = inl raised
    /\ findOne c cd key pw req w
       = (Rejected raised,
          mkWorld e' (trace w1 ++ [EPublish (click_payload cd req data)])).
Proof.
  intros Hgate Hp Hnone. apply has_message_raised in Hnone as [raised Hmsg].
  exists raised. split; [exact Hmsg|].
  rewrite (findOne_after_gate c cd key pw req w data w1 Hgate).
  exact (findOne_respond_catch_raised c cd req data w1 err e' raised Hp Hmsg).
Qed.

(** C2, as the code has it.  [findOne] awaits the publication: once the
    lookup and the gate let a link through, the request stays pending as long
    as [publish] is pending, and the response is produced once [publish] has
    settled, with the same result when it was fulfilled as when it was
    rejected with a value whose message can be read, the rejection being
    logged; the request has settled exactly when [publish] has. *)
Theorem findOne_awaits_publish c cd key pw req w data w1 :
  findOne_gate c key (default "" pw) w = (Fulfilled data, w1) ->
  let p := click_payload cd req data in
  (forall e', publish (shortenerProducer c) p (env w1) = (Pending, e') ->
     findOne c cd key pw req w
     = (Pending, mkWorld e' (trace w1 ++ [EPublish p])))
  /\ (forall u e', publish (shortenerProducer c) p (env w1) = (Fulfilled u, e') ->
        findOne c cd key pw req w
        = (Fulfilled (link_response c data),
           mkWorld e' (trace w1 ++ [EPublish p])))
  /\ (forall err e' msg,
        publish (shortenerProducer c) p (env w1) = (Rejected err, e') ->
        message err = inr msg ->
        findOne c cd key pw req w
        = (Fulfilled (link_response c data),
           mkWorld e'
             ((trace w1 ++ [EPublish p])
              ++ [ELoggerError
                    ("Error while publishing shortened url: " +:+ msg)])))
  /\ settled (fst (findOne c cd key pw req w))
     = settled (fst (publish (shortenerProducer c) p (env w1))).
Proof.
  intros Hgate p. rewrite (findOne_after_gate c cd key pw req w data w1 Hgate).
  repeat split.
  - apply findOne_respond_publish_pending.
  - apply findOne_respond_published.
  - apply findOne_respond_publish_failed.
  - destruct (publish (shortenerProducer c) p (env w1)) as [[u|err|] e'] eqn:Hp.
    + now rewrite (findOne_respond_published c cd req data w1 u e' Hp).
    + destruct (message err) as [raised|msg] eqn:Hmsg.
      * now rewrite (findOne_respond_catch_raised c cd req data w1 err e'
                       raised Hp Hmsg).
      * now rewrite (findOne_respond_publish_failed c cd req data w1 err e'
                       msg Hp Hmsg).
    + now rewrite (findOne_respond_publish_pending c cd req data w1 e' Hp).
Qed.

(** What the lookup and the gate do once [getLink] has answered. *)
Lemma findOne_gate_not_found c key password w e1 :
  getLink (shortenerService c) key (env w) = (Fulfilled None, e1) ->
  findOne_gate c key password w
  = (Rejected (BadRequestException "Shortened url is wrong or expired"),
     mkWorld e1 (trace w ++ [EGetLink key])).
Proof.
  intros H. unfold findOne_gate, bind.
  now rewrite (call_outcome _ _ _ _ _ H).
Qed.

Lemma findOne_gate_open c key password w data e1 :
  getLink (shortenerService c) key (env w) = (Fulfilled (Some data), e1) ->
  truthy_string (Link.password data) = None ->
  findOne_gate c key password w
  = (Fulfilled data, mkWorld e1 (trace w ++ [EGetLink key])).
Proof.
  intros H Hpw. unfold findOne_gate, bind.
  rewrite (call_outcome _ _ _ _ _ H). now rewrite Hpw.
Qed.

Lemma findOne_gate_checked c key password w data e1 hash ok e2 :
  getLink (shortenerService c) key (env w) = (Fulfilled (Some data), e1) ->
  truthy_string (Link.password data) = Some hash ->
  verifyPassword (shortenerService c) hash password e1 = (Fulfilled ok, e2) ->
  findOne_gate c key password w
  = (if ok then Fulfilled data
     else Rejected (UnauthorizedException "Incorrect password for this url!"),
     mkWorld e2 ((trace w ++ [EGetLink key])
                 ++ [EVerifyPassword hash password])).
Proof.
  intros H Hpw Hv. unfold findOne_gate, bind.
  rewrite (call_outcome _ _ _ _ _ H). rewrite Hpw.
  erewrite call_outcome by exact Hv. now destruct ok.
Qed.

Lemma truthy_string_hash (hash : string) :
  hash <> "" -> truthy_string (Some hash) = Some hash.
Proof. intros H. unfold truthy_string. now destruct (decide (hash = "")). Qed.

(** After a publication that was fulfilled, or rejected with a value whose
    message can be read, the response follows. *)
Lemma findOne_respond_passed c cd req data w :
  publication_passed
    (fst (publish (shortenerProducer c) (click_payload cd req data) (env w)))
  = true ->
  fst (findOne_respond c cd req data w) = Fulfilled (link_response c data).
Proof.
  destruct (publish (shortenerProducer c) (click_payload cd req data) (env w))
    as [[u|err|] e'] eqn:Hp; simpl; intros Hs; try discriminate.
  - now rewrite (findOne_respond_published c cd req data w u e' Hp).
  - apply has_message_text in Hs as [msg Hmsg].
    now rewrite (findOne_respond_publish_failed c cd req data w err e' msg
                   Hp Hmsg).
Qed.

(** C4, as the code has it.  For a link that carries a password hash, a
    supplied password that [verifyPassword] refuses makes [findOne] fail with
    Unauthorized; one that it accepts passes the gate after the lookup and
    the one password check, and [findOne] returns the response for the link
    once the awaited publication has been fulfilled, or rejected with a
    value whose message can be read.  For a link without a hash the gate
    lets the link through after the lookup alone, without a call of
    [verifyPassword], and the response follows in the same way. *)
Theorem findOne_password_gate c cd key pw req w data e1 :
  getLink (shortenerService c) key (env w) = (Fulfilled (Some data), e1) ->
  (forall hash, Link.password data = Some hash -> hash <> "" ->
     (forall e2,
        verifyPassword (shortenerService c) hash (default "" pw) e1
          = (Fulfilled false, e2) ->
        fst (findOne c cd key pw req w)
        = Rejected (UnauthorizedException "Incorrect password for this url!"))
     /\ (forall e2,
           verifyPassword (shortenerService c) hash (default "" pw) e1
             = (Fulfilled true, e2) ->
           findOne_gate c key (default "" pw) w
           = (Fulfilled data,
              mkWorld e2 ((trace w ++ [EGetLink key])
                          ++ [EVerifyPassword hash (default "" pw)]))
           /\ (publication_passed
                 (fst (publish (shortenerProducer c)
                               (click_payload cd req data) e2)) = true ->
               fst (findOne c cd key pw req w)
               = Fulfilled (link_response c data))))
  /\ (truthy_string (Link.password data) = None ->
        findOne_gate c key (default "" pw) w
        = (Fulfilled data, mkWorld e1 (trace w ++ [EGetLink key]))
        /\ (publication_passed
              (fst (publish (shortenerProducer c)
                            (click_payload cd req data) e1)) = true ->
            fst (findOne c cd key pw req w) = Fulfilled (link_response c data))).
Proof.
  intros Hget. split.
  - intros hash Hhash Hne.
    assert (Ht : truthy_string (Link.password data) = Some hash)
      by (rewrite Hhash; now apply truthy_string_hash).
    split; intros e2 Hv.
    + erewrite findOne_gate_rejected; [reflexivity|].
      now rewrite (findOne_gate_checked c key _ w data e1 hash false e2).
    + pose proof (findOne_gate_checked c key (default "" pw) w data e1 hash
                    true e2 Hget Ht Hv) as Hgate.
      split; [exact Hgate|]. intros Hs.
      rewrite (findOne_after_gate c cd key pw req w data _ Hgate).
      now apply findOne_respond_passed.
  - intros Hnone.
    pose proof (findOne_gate_open c key (default "" pw) w data e1 Hget Hnone)
      as Hgate.
    split; [exact Hgate|]. intros Hs.
    rewrite (findOne_after_gate c cd key pw req w data _ Hgate).
    now apply findOne_respond_passed.
Qed.

End FindOne.

Section FindOnePublication.
Import Shortener Fixtures.

(** C1.  The catch block of [findOne] does not contain every failure of the
    publication.  With a producer whose [publish] rejects without a reason
    (with [undefined]), the request for the existing link ["abc1"], which is
    answered with the link's url and key when the publication succeeds, is
    rejected with the [TypeError] that reading [err.message] raises in the
    catch block, and nothing is logged.  In general: a rejection whose
    message can be read is caught and logged and leaves the result what it
    is when the publication succeeds, the request then failing only at the
    lookup or at the password gate; a rejection with [null] or [undefined]
    fails every request that passed the gate. *)
Theorem findOne_fails_when_publish_rejects_without_reason :
  findOne (with_producer producer_rejects_undefined controller0) "cd" "abc1"
          None anonymous world0
  = (Rejected
       (TypeError "Cannot read properties of undefined (reading 'message')"),
     mkWorld store
       [EGetLink "abc1";
        EPublish (ClickPayload.mk "cd" None "abc1" "https://example.com")])
  /\ findOne (with_producer producer_ok controller0) "cd" "abc1" None
             anonymous world0
     = (Fulfilled (LinkResponse.mk "https://example.com?utm_source=news" "abc1"),
        mkWorld store
          [EGetLink "abc1";
           EPublish (ClickPayload.mk "cd" None "abc1" "https://example.com")])
  /\ findOne (with_producer producer_down controller0) "cd" "abc1" None
             anonymous world0
     = (Fulfilled (LinkResponse.mk "https://example.com?utm_source=news" "abc1"),
        mkWorld store
          [EGetLink "abc1";
           EPublish (ClickPayload.mk "cd" None "abc1" "https://example.com");
           ELoggerError
             "Error while publishing shortened url: queue unreachable"])
  /\ (forall E ClientDetails (c : ShortenerController E ClientDetails)
             (p_ok p_bad : ShortenerProducer E ClientDetails) cd key pw req w,
        (forall p e, exists u e', publish p_ok p e = (Fulfilled u, e')) ->
        (forall p e, exists err e',
            publish p_bad p e = (Rejected err, e') /\ has_message err = true) ->
        (forall r w_ok,
           findOne (with_producer p_ok c) cd key pw req w = (Fulfilled r, w_ok) ->
           exists msg w_bad,
             findOne (with_producer p_bad c) cd key pw req w
             = (Fulfilled r, w_bad)
             /\ trace w_bad
                = trace w_ok
                  ++ [ELoggerError
                        ("Error while publishing shortened url: " +:+ msg)])
        /\ (forall e w',
              findOne (with_producer p_bad c) cd key pw req w
              = (Rejected e, w') ->
              findOne_gate c key (default "" pw) w = (Rejected e, w')))
  /\ (forall E ClientDetails (c : ShortenerController E ClientDetails)
             cd key pw req w data w1 err e',
        findOne_gate c key (default "" pw) w = (Fulfilled data, w1) ->
        publish (shortenerProducer c) (click_payload cd req data) (env w1)
        = (Rejected err, e') ->
        has_message err = false ->
        exists raised,
          message err = inl raised
          /\ findOne c cd key pw req w
             = (Rejected raised,
                mkWorld e' (trace w1 ++ [EPublish (click_payload cd req data)]))).
Proof.
  split; [reflexivity|]. split; [reflexivity|]. split; [reflexivity|]. split.
  - intros E ClientDetails c p_ok p_bad cd key pw req w.
    apply findOne_contains_rejection_with_message.
  - intros E ClientDetails c cd key pw req w data w1 err e'.
    apply findOne_fails_without_message.
Qed.

End FindOnePublication.

Section FindOneWitnesses.
Import Shortener Fixtures.

Lemma findOne_fails_when_publish_rejects_without_reason_witness :
  exists raised,
    message ThrownNull = inl raised
    /\ findOne (with_producer producer_rejects_null controller0) "cd" "lock"
               (Some "opensesame") anonymous world0
       = (Rejected raised,
          mkWorld store
            ([EGetLink "lock"; EVerifyPassword "hash:opensesame" "opensesame"]
             ++ [EPublish (click_payload "cd" anonymous locked_link)])).
Proof.
  exact (proj2 (proj2 (proj2 (proj2
           findOne_fails_when_publish_rejects_without_reason)))
           SpecModel.LinkStore string
           (with_producer producer_rejects_null controller0) "cd" "lock"
           (Some "opensesame") anonymous world0 locked_link
           (mkWorld store
              [EGetLink "lock"; EVerifyPassword "hash:opensesame" "opensesame"])
           ThrownNull store eq_refl eq_refl eq_refl).
Defined.

(** C2, as stated, does not hold: a resolution whose lookup and gate let the
    link through does not return while the publication has not completed.
    With the producer that never completes, the request for ["abc1"] stays
    pending. *)
Lemma findOne_waits_for_publish :
  ~ (forall (c : ShortenerController SpecModel.LinkStore string) cd key pw req
            w data w1,
        findOne_gate c key (default "" pw) w = (Fulfilled data, w1) ->
        exists r w', findOne c cd key pw req w = (Fulfilled r, w')).
Proof.
  intros H.
  destruct (H (with_producer producer_stalled controller0) "cd" "abc1" None
              anonymous world0 plain_link
              (mkWorld store [EGetLink "abc1"]) eq_refl)
    as (r & w' & Hrun).
  discriminate Hrun.
Qed.

Lemma findOne_awaits_publish_witness :
  findOne (with_producer producer_stalled controller0) "cd" "abc1" None
          anonymous world0
  = (Pending,
     mkWorld store
       [EGetLink "abc1";
        EPublish (ClickPayload.mk "cd" None "abc1" "https://example.com")]).
Proof.
  exact (proj1 (findOne_awaits_publish
                  (with_producer producer_stalled controller0) "cd" "abc1"
                  None anonymous world0 plain_link
                  (mkWorld store [EGetLink "abc1"]) eq_refl)
               store eq_refl).
Defined.

(** C4, as stated, does not hold: a password that verifies does not by
    itself make the resolution succeed.  With the producer that never
    completes, the request for the protected link ["lock"] with its password
    passes the gate and then stays pending. *)
Lemma findOne_verified_password_waits :
  ~ (forall (c : ShortenerController SpecModel.LinkStore string) cd key pw req
            w data e1 hash e2,
        getLink (shortenerService c) key (env w) = (Fulfilled (Some data), e1) ->
        Link.password data = Some hash -> hash <> "" ->
        verifyPassword (shortenerService c) hash (default "" pw) e1
        = (Fulfilled true, e2) ->
        fst (findOne c cd key pw req w) = Fulfilled (link_response c data)).
Proof.
  intros H.
  specialize (H (with_producer producer_stalled controller0) "cd" "lock"
                (Some "opensesame") anonymous world0 locked_link store
                "hash:opensesame" store eq_refl eq_refl ltac:(discriminate)
                eq_refl).
  discriminate H.
Qed.

Lemma findOne_password_gate_witness :
  fst (findOne controller0 "cd" "lock" (Some "guess") anonymous world0)
  = Rejected (UnauthorizedException "Incorrect password for this url!")
  /\ fst (findOne controller0 "cd" "lock" (Some "opensesame") anonymous world0)
     = Fulfilled (LinkResponse.mk "https://example.com/private" "lock").
Proof.
  split.
  - exact (proj1 (proj1 (findOne_password_gate
                           controller0 "cd" "lock" (Some "guess") anonymous
                           world0 locked_link store eq_refl)
                        "hash:opensesame" eq_refl ltac:(discriminate))
                 store eq_refl).
  - exact (proj2 (proj2 (proj1 (findOne_password_gate
                                  controller0 "cd" "lock" (Some "opensesame")
                                  anonymous world0 locked_link store eq_refl)
                               "hash:opensesame" eq_refl ltac:(discriminate))
                        store eq_refl)
                 eq_refl).
Defined.

End FindOneWitnesses.

(** ** Resolution over the modelled resolver and the modelled [addUtmParams] *)

Section Resolver.
Import Shortener.
Context {ClientDetails : Type}.
Implicit Types (c : ShortenerController SpecModel.LinkStore ClientDetails).
Implicit Types (w : World SpecModel.LinkStore ClientDetails).

(** C3.  Over the resolver of the specification, a request for the key of a
    link that is past its expiry and a request for a key that no link has
    fail alike: [findOne] raises the same exception, with the same message,
    after the lookup alone, whatever else the two requests carry. *)
Theorem resolve_expired_as_missing
    c cd1 cd2 key pw1 pw2 req1 req2 w_missing w_expired l :
  getLink (shortenerService c) = SpecModel.getLink ->
  SpecModel.links (env w_missing) !! key = None ->
  SpecModel.links (env w_expired) !! key = Some l ->
  SpecModel.expired (SpecModel.now (env w_expired)) l = true ->
  findOne c cd1 key pw1 req1 w_missing
  = (Rejected (BadRequestException "Shortened url is wrong or expired"),
     mkWorld (env w_missing) (trace w_missing ++ [EGetLink key]))
  /\ findOne c cd2 key pw2 req2 w_expired
     = (Rejected (BadRequestException "Shortened url is wrong or expired"),
        mkWorld (env w_expired) (trace w_expired ++ [EGetLink key])).
Proof.
  intros Hget Hmissing Hstored Hexpired. split.
  - apply findOne_gate_rejected, findOne_gate_not_found.
    rewrite Hget. unfold SpecModel.getLink. now rewrite Hmissing.
  - apply findOne_gate_rejected, findOne_gate_not_found.
    rewrite Hget. unfold SpecModel.getLink. now rewrite Hstored, Hexpired.
Qed.

Lemma string_app_cons (x : ascii) (s t : string) :
  String x s +:+ t = String x (s +:+ t).
Proof. reflexivity. Qed.

Lemma string_app_assoc (s1 s2 s3 : string) :
  (s1 +:+ s2) +:+ s3 = s1 +:+ s2 +:+ s3.
Proof.
  induction s1 as [|x s1 IH]; [reflexivity|].
  rewrite !string_app_cons. now rewrite IH.
Qed.

Lemma string_app_empty_r (s : string) : s +:+ "" = s.
Proof.
  induction s as [|x s IH]; [reflexivity|].
  rewrite string_app_cons. now rewrite IH.
Qed.

Lemma has_query_app (a b : string) :
  SpecModel.has_query (a +:+ b)
  = SpecModel.has_query a || SpecModel.has_query b.
Proof.
  unfold SpecModel.has_query.
  induction a as [|x a IH]; [reflexivity|].
  rewrite string_app_cons. simpl. rewrite IH. now rewrite orb_assoc.
Qed.

Lemma has_query_append_param url kv :
  SpecModel.has_query (SpecModel.append_param url kv) = true.
Proof.
  unfold SpecModel.append_param. rewrite has_query_app.
  destruct (SpecModel.has_query url); reflexivity.
Qed.

(** The modelled [addUtmParams] appends to the url, as one query suffix, the
    parameters it selected. *)
Lemma addUtmParams_suffix url utm :
  SpecModel.addUtmParams url utm
  = url +:+ SpecModel.query_suffix (SpecModel.first_separator url)
                                   (SpecModel.utm_to_append utm).
Proof.
  unfold SpecModel.addUtmParams.
  generalize (SpecModel.utm_to_append utm) as ps. intros ps.
  revert url. induction ps as [|kv ps IH]; intros url; simpl.
  - now rewrite string_app_empty_r.
  - rewrite IH. unfold SpecModel.first_separator at 1.
    rewrite has_query_append_param.
    unfold SpecModel.append_param, SpecModel.first_separator.
    now rewrite !string_app_assoc.
Qed.

Lemma utm_to_append_spec utm (k v : string) :
  (k, v) ∈ SpecModel.utm_to_append utm
  <-> (exists ps, utm = Some ps /\ (k, v) ∈ ps) /\ v <> "".
Proof.
  unfold SpecModel.utm_to_append. rewrite list_elem_of_filter. simpl.
  split.
  - intros [Hv Hin]. split; [|exact Hv].
    destruct utm as [ps|]; simpl in Hin.
    + now exists ps.
    + now apply elem_of_nil in Hin.
  - intros [(ps & -> & Hin) Hv]. now split.
Qed.

(** The links page shows the url that the resolution returns. *)
Lemma shown_url_as_resolved url utm :
  LinksPage.shown_url SpecModel.addUtmParams url utm
  = SpecModel.addUtmParams url utm.
Proof. now destruct utm. Qed.

(** C6.  Every result of [findOne] is made of the key of the link that the
    lookup returned and of the link's url followed by a query suffix; with
    [addUtmParams] as the specification describes it, the suffix holds the
    parameters of the stored UTM set whose value is not empty, and no
    other. *)
Theorem findOne_returns_key_and_utm_url c cd key pw req w r w' :
  addUtmParams c = SpecModel.addUtmParams ->
  findOne c cd key pw req w = (Fulfilled r, w') ->
  exists data w1,
    findOne_gate c key (default "" pw) w = (Fulfilled data, w1)
    /\ LinkResponse.key r = Link.key data
    /\ LinkResponse.url r
       = Link.url data
         +:+ SpecModel.query_suffix
               (SpecModel.first_separator (Link.url data))
               (SpecModel.utm_to_append (Link.utm data))
    /\ (forall k v,
          (k, v) ∈ SpecModel.utm_to_append (Link.utm data)
          <-> (exists ps, Link.utm data = Some ps /\ (k, v) ∈ ps) /\ v <> "").
Proof.
  intros Hutm Hrun.
  apply findOne_fulfilled_inv in Hrun as (data & w1 & Hgate & Hresp).
  apply findOne_respond_fulfilled_inv in Hresp. subst r.
  exists data, w1. split; [exact Hgate|]. split; [reflexivity|]. split.
  - unfold link_response. simpl. rewrite Hutm. apply addUtmParams_suffix.
  - intros k v. apply utm_to_append_spec.
Qed.

End Resolver.

Section ResolverWitnesses.
Import Shortener Fixtures.

Lemma resolve_expired_as_missing_witness :
  findOne controller0 "cd" "nope" None anonymous world0
  = (Rejected (BadRequestException "Shortened url is wrong or expired"),
     mkWorld store [EGetLink "nope"])
  /\ findOne controller0 "cd" "nope" (Some "x") from_alice
             (mkWorld (SpecModel.mkLinkStore {["nope" := old_link]} 11) [])
     = (Rejected (BadRequestException "Shortened url is wrong or expired"),
        mkWorld (SpecModel.mkLinkStore {["nope" := old_link]} 11)
                [EGetLink "nope"]).
Proof.
  exact (resolve_expired_as_missing
           controller0 "cd" "cd" "nope" None (Some "x") anonymous from_alice
           world0
           (mkWorld (SpecModel.mkLinkStore {["nope" := old_link]} 11) [])
           old_link eq_refl eq_refl eq_refl eq_refl).
Defined.

Lemma findOne_returns_key_and_utm_url_witness :
  exists data w1,
    findOne_gate controller0 "abc1" "" world0 = (Fulfilled data, w1)
    /\ "abc1" = Link.key data
    /\ "https://example.com?utm_source=news"
       = Link.url data
         +:+ SpecModel.query_suffix
               (SpecModel.first_separator (Link.url data))
               (SpecModel.utm_to_append (Link.utm data))
    /\ (forall k v,
          (k, v) ∈ SpecModel.utm_to_append (Link.utm data)
          <-> (exists ps, Link.utm data = Some ps /\ (k, v) ∈ ps) /\ v <> "").
Proof.
  exact (findOne_returns_key_and_utm_url
           controller0 "cd" "abc1" None anonymous world0
           (LinkResponse.mk "https://example.com?utm_source=news" "abc1")
           (mkWorld store
              [EGetLink "abc1";
               EPublish (ClickPayload.mk "cd" None "abc1"
                                         "https://example.com")])
           eq_refl eq_refl).
Defined.

End ResolverWitnesses.

(** ** Validation of a requested key *)

Section KeyValidation.
Import Validation.

Lemma string_length_zero (k : string) : String.length k = 0 <-> k = "".
Proof. destruct k; simpl; split; intros H; congruence. Qed.

Lemma ShortenerDto_key_length (k : string) :
  ShortenerDto_key (Some k) = true <-> 4 <= String.length k <= 20.
Proof.
  unfold ShortenerDto_key, IsOptional, MaxLength, MinLength.
  rewrite andb_true_iff, !Nat.leb_le. lia.
Qed.

Lemma CreateLinkInputSchema_key_accepts (k : string) :
  CreateLinkInputSchema_key (Some k) = true
  <-> k = "" \/ spec_key_format k = true.
Proof.
  unfold CreateLinkInputSchema_key, key_refine, key_regex, spec_key_format.
  destruct (Nat.eqb_spec (String.length k) 0) as [H0|H0].
  - apply string_length_zero in H0 as ->. simpl. tauto.
  - rewrite <- string_length_zero.
    destruct (Nat.ltb_spec (String.length k) 4) as [H4|H4].
    + rewrite andb_false_r. rewrite !andb_true_iff, !Nat.leb_le.
      split; [discriminate | lia].
    + rewrite andb_true_r. rewrite !andb_true_iff, !Nat.leb_le. tauto.
Qed.





End KeyValidation.

(** ** Creation: [shortener] and [bulk] *)

Section Creation.
Import Shortener.
Context {E ClientDetails : Type}.
Implicit Types (c : ShortenerController E ClientDetails).
Implicit Types (w : World E ClientDetails).
Implicit Types (dto : ShortenerDto.t) (req : Request.t).

(** The calls that [Promise.all] starts are all recorded, in the order of the
    array, whatever their outcomes. *)
Lemma promise_all_calls {A B} (ev : B -> Event ClientDetails)
    (svc : B -> Service E A) (xs : list B) w :
  trace (snd (promise_all (map (fun x => call (ev x) (svc x)) xs) w))
  = trace w ++ map ev xs.
Proof.
  revert w. induction xs as [|x xs IH]; intros w; simpl.
  - now rewrite app_nil_r.
  - unfold call at 1. destruct (svc x (env w)) as [p e'].
    specialize (IH (mkWorld e' (trace w ++ [ev x]))).
    destruct (promise_all _ _) as [ps w2]. simpl in *.
    rewrite IH. now rewrite <- app_assoc.
Qed.

Lemma check_safe_urls_trace c dtos w :
  trace (snd (check_safe_urls c dtos w)) = trace w ++ safe_url_events c dtos.
Proof.
  unfold check_safe_urls, safe_url_events.
  destruct (safeUrl_enable (configService c)); [|simpl; now rewrite app_nil_r].
  unfold bind.
  pose proof (promise_all_calls
                (fun dto => EIsSafeUrl (ShortenerDto.url dto))
                (fun dto => isSafeUrl (safeUrlService c) (ShortenerDto.url dto))
                dtos w) as H.
  destruct (promise_all _ w) as [[checks|e|] w1]; simpl in *;
    [destruct (forallb _ checks)|..]; exact H.
Qed.

Lemma safe_url_events_allowed c dtos user :
  Forall (safe_url_or_create dtos user) (safe_url_events c dtos).
Proof.
  unfold safe_url_events. destruct (safeUrl_enable (configService c)); [|constructor].
  apply List.Forall_map, Forall_forall. intros dto Hin. simpl. now exists dto.
Qed.

(** Every call of [bulk] is a safe-url check of a submitted url, the log
    line, or the creation of a user's link for a submitted item, unchanged,
    by the verified user of the request. *)
Lemma bulk_events c dtos req w :
  exists evs,
    trace (snd (bulk c dtos req w)) = trace w ++ evs
    /\ Forall (safe_url_or_create dtos (Request.user req)) evs.
Proof.
  unfold bulk, bind.
  pose proof (check_safe_urls_trace c dtos w) as Hsafe.
  pose proof (safe_url_events_allowed c dtos (Request.user req)) as Hallowed.
  destruct (check_safe_urls c dtos w) as [[u|e|] w1]; simpl in Hsafe;
    [|now exists (safe_url_events c dtos)..].
  destruct (verified_user (Request.user req)) as [user|] eqn:Hv;
    [|now exists (safe_url_events c dtos)].
  unfold logger_log.
  match goal with
  | |- context [promise_all ?ms ?w0] =>
      pose proof (promise_all_calls
                    (fun dto => ECreateUsersShortenedUrl user dto)
                    (fun dto => createUsersShortenedUrl (shortenerService c) user dto)
                    dtos w0) as Hcreate;
      destruct (promise_all ms w0) as [[keys|e|] w2]
  end; simpl in *; rewrite Hcreate, Hsafe, <- !app_assoc;
    (eexists; split; [reflexivity|]);
    (apply Forall_app; split; [exact Hallowed|]);
    (apply Forall_cons; split; [exact I|]);
    apply List.Forall_map, Forall_forall; intros dto Hin; simpl; now split.
Qed.

(** A fulfilled [bulk] created a user's link for every submitted item, handed
    on as it was submitted. *)
Lemma bulk_fulfilled_creates c dtos req w r w' :
  bulk c dtos req w = (Fulfilled r, w') ->
  exists user evs,
    verified_user (Request.user req) = Some user
    /\ trace w' = evs ++ map (ECreateUsersShortenedUrl user) dtos.
Proof.
  unfold bulk, bind.
  destruct (check_safe_urls c dtos w) as [[u|e|] w1]; try discriminate.
  destruct (verified_user (Request.user req)) as [user|]; try discriminate.
  unfold logger_log.
  match goal with
  | |- context [promise_all ?ms ?w0] =>
      pose proof (promise_all_calls
                    (fun dto => ECreateUsersShortenedUrl user dto)
                    (fun dto => createUsersShortenedUrl (shortenerService c) user dto)
                    dtos w0) as Hcreate;
      destruct (promise_all ms w0) as [[keys|e|] w2]
  end; try discriminate.
  intros H. inversion H; subst. simpl in Hcreate.
  eexists user, _. split; [reflexivity | exact Hcreate].
Qed.

(** What a fulfilled [Promise.all] of calls returns: for each element of the
    array, in order, what its call returned. *)
Lemma promise_all_fulfilled {A B} (ev : B -> Event ClientDetails)
    (svc : B -> Service E A) (xs : list B) w l w' :
  promise_all (map (fun x => call (ev x) (svc x)) xs) w = (Fulfilled l, w') ->
  Forall2 (fun x a => exists e e', svc x e = (Fulfilled a, e')) xs l.
Proof.
  revert w l. induction xs as [|x xs IH]; intros w l; simpl.
  - intros H. inversion H. constructor.
  - unfold call at 1. destruct (svc x (env w)) as [p e1] eqn:Hx.
    destruct (promise_all _ _) as [ps w2] eqn:Hrest. intros H.
    inversion H as [[Hjoin Hw]].
    destruct p as [a|e|], ps as [l0|e0|]; simpl in Hjoin; try discriminate Hjoin.
    inversion Hjoin; subst. constructor; [eauto | eapply IH; exact Hrest].
Qed.

(** An unsafe url among the submitted items makes the check of [bulk]
    fail. *)
Lemma check_safe_urls_unsafe c dtos dto w :
  safeUrl_enable (configService c) = true ->
  (forall e, exists e',
      isSafeUrl (safeUrlService c) (ShortenerDto.url dto) e
      = (Fulfilled false, e')) ->
  dto ∈ dtos ->
  forall u, fst (check_safe_urls c dtos w) <> Fulfilled u.
Proof.
  intros Henabled Hunsafe Hin u. unfold check_safe_urls, bind.
  rewrite Henabled.
  destruct (promise_all _ w) as [[checks|e|] w1] eqn:Hall; simpl;
    [|discriminate..].
  apply promise_all_fulfilled in Hall.
  apply list_elem_of_lookup in Hin as [i Hi].
  destruct (Forall2_lookup_l _ _ _ _ _ Hall Hi) as (b & Hb & e & e' & Hcall).
  destruct (Hunsafe e) as (e'' & Hfalse). rewrite Hfalse in Hcall.
  inversion Hcall; subst b.
  destruct (forallb _ checks) eqn:Hforall; simpl; [|discriminate].
  rewrite forallb_forall in Hforall.
  assert (Habs : false = true); [|discriminate Habs].
  apply (Hforall false), list_elem_of_In, list_elem_of_lookup. now exists i.
Qed.

(** A [Promise.all] of calls that are all answered is fulfilled. *)
Lemma promise_all_answered {A B} (ev : B -> Event ClientDetails)
    (svc : B -> Service E A) (xs : list B) w :
  (forall x e, exists a e', svc x e = (Fulfilled a, e')) ->
  exists l w', promise_all (map (fun x => call (ev x) (svc x)) xs) w
               = (Fulfilled l, w').
Proof.
  intros Hsvc. revert w. induction xs as [|x xs IH]; intros w; simpl.
  - now eexists _, _.
  - unfold call at 1. destruct (Hsvc x (env w)) as (a & e1 & Hx). rewrite Hx.
    destruct (IH (mkWorld e1 (trace w ++ [ev x]))) as (l & w' & Hrest).
    rewrite Hrest. simpl. now eexists _, _.
Qed.

(** When the safe-url service answers every check, an unsafe url among the
    submitted items makes the check of [bulk] fail as a bad request. *)
Lemma check_safe_urls_refuses c dtos dto w :
  safeUrl_enable (configService c) = true ->
  (forall url e, exists b e',
      isSafeUrl (safeUrlService c) url e = (Fulfilled b, e')) ->
  (forall e, exists e',
      isSafeUrl (safeUrlService c) (ShortenerDto.url dto) e
      = (Fulfilled false, e')) ->
  dto ∈ dtos ->
  fst (check_safe_urls c dtos w)
  = Rejected (BadRequestException "This url is not safe to shorten!").
Proof.
  intros Henabled Hanswered Hunsafe Hin.
  pose proof (check_safe_urls_unsafe c dtos dto w Henabled Hunsafe Hin) as Hnot.
  revert Hnot. unfold check_safe_urls, bind. rewrite Henabled.
  destruct (promise_all_answered
              (fun d => EIsSafeUrl (ShortenerDto.url d))
              (fun d => isSafeUrl (safeUrlService c) (ShortenerDto.url d))
              dtos w) as (l & w' & Hall).
  { intros d e. apply Hanswered. }
  rewrite Hall. destruct (forallb _ l); simpl; intros Hnot; [|reflexivity].
  now destruct (Hnot tt).
Qed.

(** [bulk] goes no further than its safe-url check when the check does not
    pass: its outcome and its calls are those of the check. *)
Lemma bulk_stops_at_check c dtos req w :
  (forall u, fst (check_safe_urls c dtos w) <> Fulfilled u) ->
  (forall r, fst (bulk c dtos req w) <> Fulfilled r)
  /\ trace (snd (bulk c dtos req w)) = trace w ++ safe_url_events c dtos
  /\ (forall e, fst (check_safe_urls c dtos w) = Rejected e ->
        fst (bulk c dtos req w) = Rejected e).
Proof.
  intros Hnot. pose proof (check_safe_urls_trace c dtos w) as Htrace.
  unfold bulk, bind.
  destruct (check_safe_urls c dtos w) as [[u|e|] w1]; simpl in *.
  - now destruct (Hnot u).
  - split; [discriminate|]. split; [exact Htrace|].
    intros e0 He. now inversion He.
  - split; [discriminate|]. split; [exact Htrace|]. discriminate.
Qed.

(** [bulk] creates nothing for a user who is not verified: once the safe-url
    check has passed the request fails as a bad request. *)
Lemma bulk_unverified c dtos req w :
  verified_user (Request.user req) = None ->
  (forall r, fst (bulk c dtos req w) <> Fulfilled r)
  /\ trace (snd (bulk c dtos req w)) = trace w ++ safe_url_events c dtos
  /\ (forall u, fst (check_safe_urls c dtos w) = Fulfilled u ->
        fst (bulk c dtos req w)
        = Rejected (BadRequestException
                      "You must be verified in to create a shortened url")).
Proof.
  intros Hv. pose proof (check_safe_urls_trace c dtos w) as Htrace.
  unfold bulk, bind. rewrite Hv.
  destruct (check_safe_urls c dtos w) as [[u|e|] w1]; simpl in *;
    (split; [discriminate|]); (split; [exact Htrace|]);
    intros u0 Hu; [reflexivity | discriminate..].
Qed.

(** The calls of [bulk] start with its safe-url checks. *)
Lemma bulk_starts_with_checks c dtos req w :
  exists evs,
    trace (snd (bulk c dtos req w)) = trace w ++ safe_url_events c dtos ++ evs.
Proof.
  unfold bulk, bind.
  pose proof (check_safe_urls_trace c dtos w) as Hsafe.
  destruct (check_safe_urls c dtos w) as [[u|e|] w1]; simpl in Hsafe;
    [|exists []; now rewrite app_nil_r..].
  destruct (verified_user (Request.user req)) as [user|];
    [|exists []; now rewrite app_nil_r].
  unfold logger_log.
  match goal with
  | |- context [promise_all ?ms ?w0] =>
      pose proof (promise_all_calls
                    (fun dto => ECreateUsersShortenedUrl user dto)
                    (fun dto => createUsersShortenedUrl (shortenerService c) user dto)
                    dtos w0) as Hcreate;
      destruct (promise_all ms w0) as [[keys|e|] w2]
  end; simpl in *; rewrite Hcreate, Hsafe, <- !app_assoc;
    eexists; reflexivity.
Qed.

(** Membership in a trace that is an append of known events. *)
Ltac in_trace :=
  unfold not; intros;
  repeat match goal with
         | H : _ ∈ _ |- _ =>
             rewrite ?elem_of_app, ?elem_of_cons, ?elem_of_nil in H
         end;
  rewrite ?elem_of_app, ?elem_of_cons, ?elem_of_nil;
  intuition (try discriminate; eauto).

(** The calls of the steps of [shortener], when they let the request
    through. *)
Lemma check_safe_url_passed c url w u w1 :
  check_safe_url c url w = (Fulfilled u, w1) ->
  trace w1
  = trace w ++ (if safeUrl_enable (configService c) then [EIsSafeUrl url] else []).
Proof.
  unfold check_safe_url, bind, call, ret, throw.
  destruct (safeUrl_enable (configService c)).
  - destruct (isSafeUrl _ _ _) as [[[]|e|] e']; intros H; inversion H.
    reflexivity.
  - intros H. inversion H. simpl. now rewrite app_nil_r.
Qed.

Lemma check_key_available_passed c key w u w1 :
  check_key_available c key w = (Fulfilled u, w1) ->
  trace w1
  = trace w ++ match truthy_string key with
               | Some k => [EIsKeyAvailable k]
               | None => []
               end.
Proof.
  unfold check_key_available, bind, call, ret, throw.
  destruct (truthy_string key) as [k|].
  - destruct (isKeyAvailable _ _ _) as [[[]|e|] e']; intros H; inversion H.
    reflexivity.
  - intros H. inversion H. simpl. now rewrite app_nil_r.
Qed.

Lemma hash_dto_password_done c dto w dto' w1 :
  hash_dto_password c dto w = (Fulfilled dto', w1) ->
  match truthy_string (ShortenerDto.password dto) with
  | Some pw =>
      exists hashed,
        dto' = ShortenerDto.set_password (Some hashed) dto
        /\ trace w1 = trace w ++ [EHashPassword pw]
  | None => dto' = dto /\ trace w1 = trace w
  end.
Proof.
  unfold hash_dto_password, bind, call, ret.
  destruct (truthy_string (ShortenerDto.password dto)) as [pw|].
  - destruct (hashPassword _ _ _) as [[hashed|e|] e']; intros H; inversion H.
    now exists hashed.
  - intros H. inversion H. now split.
Qed.

(** What a fulfilled [shortener] did on the way: the availability pre-check
    of a requested key; for a temporary link, the creation of a temporary
    link from the request without its password, and no creation of a user's
    link; otherwise the quota check for the verified user, the hashing of a
    supplied password, and the creation of a user's link that carries the
    hash. *)
Lemma shortener_performs c dto req w r w' :
  shortener c dto req w = (Fulfilled r, w') ->
  exists evs,
    trace w' = trace w ++ evs
    /\ (forall k, truthy_string (ShortenerDto.key dto) = Some k ->
          EIsKeyAvailable k ∈ evs)
    /\ (truthy_bool (ShortenerDto.temporary dto) = true ->
          ECreateShortenedUrl (ShortenerDto.rest_without_password dto) ∈ evs
          /\ forall u d, ECreateUsersShortenedUrl u d ∉ evs)
    /\ (truthy_bool (ShortenerDto.temporary dto) = false ->
          exists user,
            verified_user (Request.user req) = Some user
            /\ EIsEligibleToCreateLink (UserContext.id user) ∈ evs
            /\ match truthy_string (ShortenerDto.password dto) with
               | Some pw =>
                   exists hashed,
                     EHashPassword pw ∈ evs
                     /\ ECreateUsersShortenedUrl
                          user (ShortenerDto.set_password (Some hashed) dto)
                        ∈ evs
               | None => ECreateUsersShortenedUrl user dto ∈ evs
               end).
Proof.
  unfold shortener, bind at 1 2.
  destruct (check_safe_url c (ShortenerDto.url dto) w) as [[u1|e|] w1] eqn:H1;
    try discriminate.
  apply check_safe_url_passed in H1.
  destruct (check_key_available c (ShortenerDto.key dto) w1) as [[u2|e|] w2] eqn:H2;
    try discriminate.
  apply check_key_available_passed in H2.
  destruct (truthy_bool (ShortenerDto.temporary dto)) eqn:Htemp.
  - unfold call.
    destruct (createShortenedUrl _ _ _) as [p e']. intros H. inversion H; subst.
    simpl. rewrite H2, H1, <- !app_assoc.
    eexists. split; [reflexivity|]. split; [|split; [|discriminate]].
    + intros k Hk. rewrite Hk. in_trace.
    + intros _. split; [in_trace|].
      intros u d.
      destruct (safeUrl_enable (configService c));
        destruct (truthy_string (ShortenerDto.key dto)); in_trace.
  - destruct (verified_user (Request.user req)) as [user|]; try discriminate.
    unfold bind at 1.
    destruct (hash_dto_password c dto w2) as [[dto'|e|] w3] eqn:H3;
      try discriminate.
    apply hash_dto_password_done in H3.
    unfold bind, call, logger_log.
    destruct (isEligibleToCreateLink _ _ _) as [[[]|e|] e4]; try discriminate.
    simpl. destruct (createUsersShortenedUrl _ _ _ _) as [p e5].
    intros H. inversion H; subst. simpl.
    assert (Hw3 : exists evs3,
               trace w3 = trace w ++ evs3
               /\ (forall k, truthy_string (ShortenerDto.key dto) = Some k ->
                     EIsKeyAvailable k ∈ evs3)
               /\ match truthy_string (ShortenerDto.password dto) with
                  | Some pw =>
                      exists hashed,
                        dto' = ShortenerDto.set_password (Some hashed) dto
                        /\ EHashPassword pw ∈ evs3
                  | None => dto' = dto
                  end).
    { destruct (truthy_string (ShortenerDto.password dto)) as [pw|].
      - destruct H3 as (hashed & -> & H3). rewrite H3, H2, H1, <- !app_assoc.
        eexists. split; [reflexivity|]. split.
        + intros k Hk. rewrite Hk. in_trace.
        + exists hashed. split; [reflexivity | in_trace].
      - destruct H3 as [-> H3]. rewrite H3, H2, H1, <- !app_assoc.
        eexists. split; [reflexivity|]. split; [|reflexivity].
        intros k Hk. rewrite Hk. in_trace. }
    destruct Hw3 as (evs3 & -> & Hkey & Hpw). rewrite <- !app_assoc.
    eexists. split; [reflexivity|]. split; [|split; [discriminate|]].
    + intros k Hk. specialize (Hkey k Hk). in_trace.
    + intros _. exists user. split; [reflexivity|]. split; [in_trace|].
      destruct (truthy_string (ShortenerDto.password dto)) as [pw|].
      * destruct Hpw as (hashed & -> & Hh). exists hashed. in_trace.
      * subst dto'. in_trace.
Qed.

(** Rules for [adds_only]. *)
Lemma adds_only_ret {A} Q (a : A) : adds_only (E := E) (ClientDetails := ClientDetails) Q (ret a).
Proof. intros w. exists []. simpl. now rewrite app_nil_r. Qed.

Lemma adds_only_throw {A} Q e :
  adds_only (E := E) (ClientDetails := ClientDetails) (A := A) Q (throw e).
Proof. intros w. exists []. simpl. now rewrite app_nil_r. Qed.

Lemma adds_only_call {A} (Q : Event ClientDetails -> Prop) ev (svc : Service E A) :
  Q ev -> adds_only Q (call ev svc).
Proof.
  intros HQ w. exists [ev]. unfold call.
  destruct (svc (env w)) as [p e']. simpl. split; [reflexivity|].
  now repeat constructor.
Qed.

Lemma adds_only_logger_log (Q : Event ClientDetails -> Prop) msg :
  Q (ELoggerLog msg) -> adds_only (E := E) Q (logger_log msg).
Proof.
  intros HQ w. exists [ELoggerLog msg]. simpl. split; [reflexivity|].
  now repeat constructor.
Qed.

Lemma adds_only_bind {A B} (Q : Event ClientDetails -> Prop)
    (m : Task (World E ClientDetails) A) (k : A -> Task (World E ClientDetails) B) :
  adds_only Q m -> (forall a, adds_only Q (k a)) -> adds_only Q (bind m k).
Proof.
  intros Hm Hk w. destruct (Hm w) as (evs1 & H1 & F1). unfold bind.
  destruct (m w) as [[a|e|] w1]; simpl in *; [|now exists evs1..].
  destruct (Hk a w1) as (evs2 & H2 & F2).
  exists (evs1 ++ evs2). rewrite H2, H1, app_assoc. split; [reflexivity|].
  apply Forall_app. now split.
Qed.

(** Whatever the request and the outcome of its steps, [shortener] only
    ever creates a temporary link from a request without password. *)
Lemma shortener_temporary_without_password c dto req :
  adds_only temporary_without_password (shortener c dto req).
Proof.
  unfold shortener. apply adds_only_bind.
  { unfold check_safe_url. destruct (safeUrl_enable _); [|apply adds_only_ret].
    apply adds_only_bind; [now apply adds_only_call|].
    intros []; [apply adds_only_ret | apply adds_only_throw]. }
  intros _. apply adds_only_bind.
  { unfold check_key_available. destruct (truthy_string _); [|apply adds_only_ret].
    apply adds_only_bind; [now apply adds_only_call|].
    intros []; [apply adds_only_ret | apply adds_only_throw]. }
  intros _. destruct (truthy_bool _).
  { now apply adds_only_call. }
  destruct (verified_user _) as [user|]; [|apply adds_only_throw].
  apply adds_only_bind.
  { unfold hash_dto_password. destruct (truthy_string _); [|apply adds_only_ret].
    apply adds_only_bind; [now apply adds_only_call|].
    intros hashed. apply adds_only_ret. }
  intros dto'. apply adds_only_bind; [now apply adds_only_call|].
  intros []; [|apply adds_only_throw].
  apply adds_only_bind; [now apply adds_only_logger_log|].
  intros _. now apply adds_only_call.
Qed.

End Creation.

Section CreationPaths.
Import Shortener Fixtures.

(** C7.  [shortener] keeps the rule on every request: whatever the outcome
    of its steps, it creates a temporary link only from a request without
    password.  [bulk] breaks it: for a submitted item with the temporary flag
    and a password, it hands the item on to the creation of a link with the
    flag and the password still in it, where [shortener] creates the
    temporary link from the same request without its password. *)
Theorem bulk_keeps_password_of_temporary :
  (forall E ClientDetails (c : ShortenerController E ClientDetails) dto req,
      adds_only temporary_without_password (shortener c dto req))
  /\ ShortenerDto.temporary temporary_with_password = Some true
  /\ ShortenerDto.password temporary_with_password = Some "secret"
  /\ bulk controller0 [temporary_with_password] from_alice world0
     = (Fulfilled (BulkCreated.mk ["rnd001"]),
        mkWorld store
          [EIsSafeUrl "https://example.com/t";
           ELoggerLog "User u-alice is creating a bulk-shortened url for 1 urls";
           ECreateUsersShortenedUrl alice temporary_with_password])
  /\ shortener controller0 temporary_with_password from_alice world0
     = (Fulfilled (Created.mk "rnd001"),
        mkWorld store
          [EIsSafeUrl "https://example.com/t";
           ECreateShortenedUrl
             (ShortenerDto.set_password None temporary_with_password)]).
Proof.
  split.
  { intros E ClientDetails c dto req.
    apply shortener_temporary_without_password. }
  repeat split.
Qed.

(** C10.  The bulk path is not the single-link path.  Every call that
    [bulk] makes is a safe-url check of a submitted url, the log line, or the
    creation of a user's link for a submitted item, handed on unchanged for
    the verified user of the request, and a fulfilled [bulk] has a verified
    user and made that creation for every item.  [bulk] applies the two
    checks: its calls start with the safe-url check of every submitted url
    (when the check is enabled), a url that the safe-url service refuses
    leaves the request without result and without any call but the checks,
    failing it as a bad request once every check is answered; and a request
    of a user who is not verified has no result and creates nothing, failing
    as a bad request once the safe-url check has passed.  A fulfilled
    [shortener] checked the availability of a requested key, created a
    temporary link without its password for a temporary request, and
    otherwise checked the user's quota and hashed a supplied password before
    the creation.  The four differences show on requests: a taken key, a
    temporary request, a supplied password, and a used-up quota; the shared
    safe-url check shows on a request with an unsafe url. *)
Theorem bulk_differs_from_shortener :
  (forall E ClientDetails (c : ShortenerController E ClientDetails) dtos req w,
      (exists evs,
          trace (snd (bulk c dtos req w)) = trace w ++ evs
          /\ Forall (safe_url_or_create dtos (Request.user req)) evs)
      /\ (forall r w',
            bulk c dtos req w = (Fulfilled r, w') ->
            exists user evs,
              verified_user (Request.user req) = Some user
              /\ trace w' = evs ++ map (ECreateUsersShortenedUrl user) dtos)
      /\ (exists evs,
            trace (snd (bulk c dtos req w))
            = trace w ++ safe_url_events c dtos ++ evs)
      /\ (forall dto,
            safeUrl_enable (configService c) = true ->
            dto ∈ dtos ->
            (forall e, exists e',
                isSafeUrl (safeUrlService c) (ShortenerDto.url dto) e
                = (Fulfilled false, e')) ->
            (forall r, fst (bulk c dtos req w) <> Fulfilled r)
            /\ trace (snd (bulk c dtos req w))
               = trace w ++ map (fun d => EIsSafeUrl (ShortenerDto.url d)) dtos
            /\ ((forall url e, exists b e',
                    isSafeUrl (safeUrlService c) url e = (Fulfilled b, e')) ->
                fst (bulk c dtos req w)
                = Rejected (BadRequestException
                              "This url is not safe to shorten!")))
      /\ (verified_user (Request.user req) = None ->
          (forall r, fst (bulk c dtos req w) <> Fulfilled r)
          /\ trace (snd (bulk c dtos req w)) = trace w ++ safe_url_events c dtos
          /\ (forall u, fst (check_safe_urls c dtos w) = Fulfilled u ->
                fst (bulk c dtos req w)
                = Rejected (BadRequestException
                              "You must be verified in to create a shortened url"))))
  /\ (forall E ClientDetails (c : ShortenerController E ClientDetails) dto req
             w r w',
        shortener c dto req w = (Fulfilled r, w') ->
        exists evs,
          trace w' = trace w ++ evs
          /\ (forall k, truthy_string (ShortenerDto.key dto) = Some k ->
                EIsKeyAvailable k ∈ evs)
          /\ (truthy_bool (ShortenerDto.temporary dto) = true ->
                ECreateShortenedUrl (ShortenerDto.rest_without_password dto) ∈ evs
                /\ forall u d, ECreateUsersShortenedUrl u d ∉ evs)
          /\ (truthy_bool (ShortenerDto.temporary dto) = false ->
                exists user,
                  verified_user (Request.user req) = Some user
                  /\ EIsEligibleToCreateLink (UserContext.id user) ∈ evs
                  /\ match truthy_string (ShortenerDto.password dto) with
                     | Some pw =>
                         exists hashed,
                           EHashPassword pw ∈ evs
                           /\ ECreateUsersShortenedUrl
                                user
                                (ShortenerDto.set_password (Some hashed) dto)
                              ∈ evs
                     | None => ECreateUsersShortenedUrl user dto ∈ evs
                     end))
  /\ (fst (shortener controller0 taken_key_with_password from_alice world0)
      = Rejected (BadRequestException "This short link already exists")
      /\ fst (bulk controller0 [taken_key_with_password] from_alice world0)
         = Fulfilled (BulkCreated.mk ["abc1"]))
  /\ (fst (shortener controller0 temporary_with_password anonymous world0)
      = Fulfilled (Created.mk "rnd001")
      /\ fst (bulk controller0 [temporary_with_password] anonymous world0)
         = Rejected (BadRequestException
                       "You must be verified in to create a shortened url"))
  /\ (trace (snd (shortener controller0 with_password from_alice world0))
      = [EIsSafeUrl "https://example.com/p"; EIsKeyAvailable "free1";
         EHashPassword "secret"; EIsEligibleToCreateLink "u-alice";
         ELoggerLog
           "User u-alice is creating a shortened url for https://example.com/p";
         ECreateUsersShortenedUrl
           alice (ShortenerDto.set_password (Some "hash:secret") with_password)]
      /\ trace (snd (bulk controller0 [with_password] from_alice world0))
         = [EIsSafeUrl "https://example.com/p";
            ELoggerLog
              "User u-alice is creating a bulk-shortened url for 1 urls";
            ECreateUsersShortenedUrl alice with_password])
  /\ (fst (shortener controller0 with_password from_bob world0)
      = Rejected (BadRequestException
                    "You have reached your link creation limit")
      /\ fst (bulk controller0 [with_password] from_bob world0)
         = Fulfilled (BulkCreated.mk ["free1"]))
  /\ bulk controller0 [with_password; dto_of_url "http://malware.test"]
          from_alice world0
     = (Rejected (BadRequestException "This url is not safe to shorten!"),
        mkWorld store
          [EIsSafeUrl "https://example.com/p"; EIsSafeUrl "http://malware.test"]).
Proof.
  split.
  { intros E ClientDetails c dtos req w.
    split; [apply bulk_events|]. split; [apply bulk_fulfilled_creates|].
    split; [apply bulk_starts_with_checks|]. split.
    - intros dto Henabled Hin Hunsafe.
      pose proof (check_safe_urls_unsafe c dtos dto w Henabled Hunsafe Hin)
        as Hnot.
      destruct (bulk_stops_at_check c dtos req w Hnot)
        as (Hnone & Htrace & Hsame).
      unfold safe_url_events in Htrace. rewrite Henabled in Htrace.
      split; [exact Hnone|]. split; [exact Htrace|].
      intros Hanswered. apply Hsame.
      now apply (check_safe_urls_refuses c dtos dto w).
    - apply bulk_unverified. }
  split.
  { intros E ClientDetails c dto req w r w'. apply shortener_performs. }
  repeat split.
Qed.

Lemma bulk_differs_from_shortener_witness :
  exists evs : list (Event string),
    [EIsSafeUrl "https://example.com/t";
     ECreateShortenedUrl (ShortenerDto.set_password None temporary_with_password)]
    = [] ++ evs
    /\ ECreateShortenedUrl
         (ShortenerDto.rest_without_password temporary_with_password) ∈ evs.
Proof.
  destruct (proj1 (proj2 bulk_differs_from_shortener)
              SpecModel.LinkStore string controller0 temporary_with_password
              from_alice world0 (Created.mk "rnd001")
              (mkWorld store
                 [EIsSafeUrl "https://example.com/t";
                  ECreateShortenedUrl
                    (ShortenerDto.set_password None temporary_with_password)])
              eq_refl)
    as (evs & Htrace & _ & Htemp & _).
  exists evs. split; [exact Htrace|]. exact (proj1 (Htemp eq_refl)).
Defined.

End CreationPaths.

(** ** Analytics *)

Section AnalyticsProperties.
Import Analytics.
Context {E Clicks Grouped Total : Type}.
Implicit Types (c : AnalyticsController E Clicks Grouped Total).
Implicit Types (w : World E) (user : UserContext.t).

Lemma find_none_of_all_false {A} (f : A -> bool) (l : list A) :
  (forall x, x ∈ l -> f x = false) -> List.find f l = None.
Proof.
  induction l as [|x l IH]; intros H; simpl; [reflexivity|].
  rewrite (H x) by apply list_elem_of_here.
  apply IH. intros y Hy. apply H. now apply list_elem_of_further.
Qed.

Lemma link_where_owned key userId (r : LinkRow.t) :
  link_where key userId r = true <-> owned_link key userId r.
Proof.
  unfold link_where, owned_link.
  now rewrite andb_true_iff, !bool_decide_eq_true.
Qed.

(** [findLink] when no link has the key and the user as owner. *)
Lemma findLink_not_found c key userId w :
  (forall r, r ∈ link_rows (prismaService c) (env w) ->
             ~ owned_link key userId r) ->
  findLink c key userId w
  = (Rejected (NotFoundException "Link not found"),
     mkWorld (env w) (trace w ++ [ELinkFindUnique key userId])).
Proof.
  intros Hnone. unfold findLink, bind, call, link_findUnique.
  rewrite find_none_of_all_false; [reflexivity|].
  intros r Hr. apply not_true_is_false. rewrite link_where_owned.
  now apply Hnone.
Qed.

(** [findLink] in general: it looks the link up, and what it returns is the
    id and the url of a link that has the key and the user as owner. *)
Lemma findLink_outcome c key userId w :
  env (snd (findLink c key userId w)) = env w
  /\ trace (snd (findLink c key userId w))
     = trace w ++ [ELinkFindUnique key userId]
  /\ forall link,
       fst (findLink c key userId w) = Fulfilled link ->
       exists r,
         r ∈ link_rows (prismaService c) (env w)
         /\ owned_link key userId r
         /\ link = LinkSelect.mk (LinkRow.id r) (LinkRow.url r).
Proof.
  unfold findLink, bind, call, link_findUnique.
  destruct (List.find _ _) as [r|] eqn:Hfind; simpl.
  - repeat split. intros link Hlink. inversion Hlink; subst.
    apply find_some in Hfind as [Hin Hwhere].
    exists r. rewrite <- link_where_owned.
    split; [now apply list_elem_of_In | now split].
  - repeat split. discriminate.
Qed.

(** The calls of [getGroupedData]: the lookup, then, for a link of the
    user, the grouped query on the id of that link, with the field and the
    include it was given. *)
Lemma getGroupedData_outcome c key userId days field include w :
  match fst (findLink c key userId w) with
  | Fulfilled link =>
      trace (snd (getGroupedData c key userId days field include w))
      = trace w ++ [ELinkFindUnique key userId;
                    EGetGroupedByField (LinkSelect.id link) field days include]
      /\ forall resp,
           fst (getGroupedData c key userId days field include w)
           = Fulfilled resp ->
           grouped_url resp = LinkSelect.url link
           /\ fst (getGroupedByField (analyticsService c) (LinkSelect.id link)
                                     field days include (env w))
              = Fulfilled (data resp)
  | _ =>
      getGroupedData c key userId days field include w
      = (match fst (findLink c key userId w) with
         | Rejected e => Rejected e
         | _ => Pending
         end,
         mkWorld (env w) (trace w ++ [ELinkFindUnique key userId]))
  end.
Proof.
  pose proof (findLink_outcome c key userId w) as (Henv & Htrace & _).
  unfold getGroupedData, bind.
  destruct (findLink c key userId w) as [[link|e|] [e1 t1]]; simpl in *; subst;
    [|reflexivity..].
  unfold call. simpl.
  destruct (getGroupedByField _ _ _ _ _ _) as [[d|e|] e2]; simpl;
    rewrite <- app_assoc; (split; [reflexivity|]); intros resp Hresp;
    inversion Hresp; subst. now split.
Qed.

Lemma getAnalytics_outcome c key days user w :
  match fst (findLink c key (UserContext.id user) w) with
  | Fulfilled link =>
      trace (snd (getAnalytics c key days user w))
      = trace w ++ [ELinkFindUnique key (UserContext.id user);
                    EGetClicksOverTime (LinkSelect.id link) days]
      /\ forall resp,
           fst (getAnalytics c key days user w) = Fulfilled resp ->
           url resp = LinkSelect.url link
  | _ =>
      getAnalytics c key days user w
      = (match fst (findLink c key (UserContext.id user) w) with
         | Rejected e => Rejected e
         | _ => Pending
         end,
         mkWorld (env w) (trace w ++ [ELinkFindUnique key (UserContext.id user)]))
  end.
Proof.
  pose proof (findLink_outcome c key (UserContext.id user) w) as (Henv & Htrace & _).
  unfold getAnalytics, bind.
  destruct (findLink c key (UserContext.id user) w) as [[link|e|] [e1 t1]];
    simpl in *; subst; [|reflexivity..].
  unfold call. simpl.
  destruct (getClicksOverTime _ _ _ _) as [[d|e|] e2]; simpl;
    rewrite <- app_assoc; (split; [reflexivity|]); intros resp Hresp;
    inversion Hresp; subst. reflexivity.
Qed.

(** The handler of a grouped route is [getGroupedData] on the field and the
    include of the route. *)
Lemma grouped_handler_query (route : GroupedRoute) c key days user :
  grouped_handler route c key days user
  = getGroupedData c key (UserContext.id user) days
                   (grouped_query route).1 (grouped_query route).2.
Proof. now destruct route. Qed.

(** C9.  For the clicks-over-time query and for every grouped query: when no
    link has the requested key and the requesting user as owner, the query
    fails with the not-found exception after the lookup alone, no aggregation
    having been asked of the analytics service; and in every run, an
    aggregation is only asked for the id of a link that has the key and the
    user as owner, and a response carries the url of such a link. *)
Theorem analytics_requires_owned_link c key days user w :
  ((forall r, r ∈ link_rows (prismaService c) (env w) ->
              ~ owned_link key (UserContext.id user) r) ->
   getAnalytics c key days user w
   = (Rejected (NotFoundException "Link not found"),
      mkWorld (env w) (trace w ++ [ELinkFindUnique key (UserContext.id user)]))
   /\ forall route,
        grouped_handler route c key days user w
        = (Rejected (NotFoundException "Link not found"),
           mkWorld (env w)
                   (trace w ++ [ELinkFindUnique key (UserContext.id user)])))
  /\ (exists evs,
         trace (snd (getAnalytics c key days user w)) = trace w ++ evs
         /\ Forall (lookup_or_owned_aggregation
                      (link_rows (prismaService c) (env w)) key
                      (UserContext.id user)) evs)
  /\ (forall route, exists evs,
         trace (snd (grouped_handler route c key days user w)) = trace w ++ evs
         /\ Forall (lookup_or_owned_aggregation
                      (link_rows (prismaService c) (env w)) key
                      (UserContext.id user)) evs)
  /\ (forall resp,
        fst (getAnalytics c key days user w) = Fulfilled resp ->
        exists r, r ∈ link_rows (prismaService c) (env w)
                  /\ owned_link key (UserContext.id user) r
                  /\ url resp = LinkRow.url r)
  /\ (forall route resp,
        fst (grouped_handler route c key days user w) = Fulfilled resp ->
        exists r, r ∈ link_rows (prismaService c) (env w)
                  /\ owned_link key (UserContext.id user) r
                  /\ grouped_url resp = LinkRow.url r).
Proof.
  pose proof (findLink_outcome c key (UserContext.id user) w)
    as (Henv & Htrace & Hlink).
  split; [|split; [|split; [|split]]].
  - intros Hnone.
    pose proof (findLink_not_found c key (UserContext.id user) w Hnone) as Hnf.
    split.
    + unfold getAnalytics, bind. now rewrite Hnf.
    + intros route. rewrite grouped_handler_query.
      unfold getGroupedData, bind. now rewrite Hnf.
  - pose proof (getAnalytics_outcome c key days user w) as Hrun.
    destruct (fst (findLink c key (UserContext.id user) w)) as [link|e|].
    + destruct Hrun as [-> _]. destruct (Hlink link eq_refl) as (r & Hr & Ho & ->).
      eexists. split; [reflexivity|].
      repeat constructor. now exists r.
    + rewrite Hrun. simpl. eexists. split; [reflexivity|]. now repeat constructor.
    + rewrite Hrun. simpl. eexists. split; [reflexivity|]. now repeat constructor.
  - intros route. rewrite grouped_handler_query.
    pose proof (getGroupedData_outcome
                  c key (UserContext.id user) days
                  (grouped_query route).1 (grouped_query route).2 w) as Hrun.
    destruct (fst (findLink c key (UserContext.id user) w)) as [link|e|].
    + destruct Hrun as [-> _]. destruct (Hlink link eq_refl) as (r & Hr & Ho & ->).
      eexists. split; [reflexivity|].
      repeat constructor. now exists r.
    + rewrite Hrun. simpl. eexists. split; [reflexivity|]. now repeat constructor.
    + rewrite Hrun. simpl. eexists. split; [reflexivity|]. now repeat constructor.
  - intros resp Hresp.
    pose proof (getAnalytics_outcome c key days user w) as Hrun.
    destruct (fst (findLink c key (UserContext.id user) w)) as [link|e|].
    + destruct Hrun as [_ Hurl]. destruct (Hlink link eq_refl) as (r & Hr & Ho & ->).
      exists r. split; [exact Hr|]. split; [exact Ho|]. now apply Hurl.
    + rewrite Hrun in Hresp. discriminate Hresp.
    + rewrite Hrun in Hresp. discriminate Hresp.
  - intros route resp. rewrite grouped_handler_query. intros Hresp.
    pose proof (getGroupedData_outcome
                  c key (UserContext.id user) days
                  (grouped_query route).1 (grouped_query route).2 w) as Hrun.
    destruct (fst (findLink c key (UserContext.id user) w)) as [link|e|].
    + destruct Hrun as [_ Hurl]. destruct (Hlink link eq_refl) as (r & Hr & Ho & ->).
      exists r. split; [exact Hr|]. split; [exact Ho|]. now apply Hurl.
    + rewrite Hrun in Hresp. discriminate Hresp.
    + rewrite Hrun in Hresp. discriminate Hresp.
Qed.

End AnalyticsProperties.

(** ** Grouped queries over the modelled analytics service *)

Section GroupedRows.
Import Analytics.

Lemma add_to_group_columns key rows (r : SpecModel.GroupedRow) :
  r ∈ SpecModel.add_to_group key rows ->
  SpecModel.columns r = key \/ r ∈ rows.
Proof.
  induction rows as [|r0 rows IH]; simpl.
  - intros H%list_elem_of_singleton. subst. now left.
  - destruct (decide (SpecModel.columns r0 = key)).
    + intros [->|H]%elem_of_cons; [now left|].
      right. now apply list_elem_of_further.
    + intros [->|H]%elem_of_cons; [right; apply list_elem_of_here|].
      destruct (IH H) as [Hk|Hin]; [now left|].
      right. now apply list_elem_of_further.
Qed.

(** Every row of a grouped answer holds the values of a grouped fact. *)
Lemma grouped_rows_from_facts cols facts rows (r : SpecModel.GroupedRow) :
  r ∈ fold_left (fun rows f =>
                   SpecModel.add_to_group (SpecModel.fact_columns cols f) rows)
                facts rows ->
  r ∈ rows
  \/ exists f, f ∈ facts /\ SpecModel.columns r = SpecModel.fact_columns cols f.
Proof.
  revert rows. induction facts as [|f facts IH]; intros rows; simpl.
  - now left.
  - intros H. destruct (IH _ H) as [Hin|(f' & Hf' & Hcols)].
    + apply add_to_group_columns in Hin as [Hk|Hin]; [|now left].
      right. exists f. split; [apply list_elem_of_here | exact Hk].
    + right. exists f'. split; [now apply list_elem_of_further | exact Hcols].
Qed.

Context {Clicks Total : Type}.
Implicit Types
  (c : AnalyticsController SpecModel.AnalyticsDb Clicks
                           (list SpecModel.GroupedRow) Total).

(** C8.  The grouped routes of the controller query the six dimensions
    device, os, browser, country, region and city, one each; the route of the
    cities passes the include [{ country: true }] and no other route passes
    an include; each handler asks the analytics service for the field and the
    include of its route, on the id of the user's link, and answers with what
    the service returned.  With the grouped query as the specification
    describes it, every row of the answer for the cities carries the city and
    the country of a click fact, and a row of another route carries the value
    of its one dimension. *)
Theorem grouped_dimensions c key days user w :
  map (fun route => (grouped_query route).1) grouped_routes
  = ["device"; "os"; "browser"; "country"; "region"; "city"]
  /\ (forall route,
        (grouped_query route).2
        = match route with
          | Cities => Some [("country", true)]
          | _ => None
          end)
  /\ (forall route link,
        fst (findLink c key (UserContext.id user) w) = Fulfilled link ->
        trace (snd (grouped_handler route c key days user w))
        = trace w ++ [ELinkFindUnique key (UserContext.id user);
                      EGetGroupedByField (LinkSelect.id link)
                                         (grouped_query route).1 days
                                         (grouped_query route).2])
  /\ (getGroupedByField (analyticsService c) = SpecModel.getGroupedByField ->
      forall route resp row,
        fst (grouped_handler route c key days user w) = Fulfilled resp ->
        row ∈ data resp ->
        exists f,
          f ∈ SpecModel.db_facts (env w)
          /\ SpecModel.columns row
             = match route with
               | Devices => [("device", SpecModel.ClickFact.device f)]
               | Os => [("os", SpecModel.ClickFact.os f)]
               | Browsers => [("browser", SpecModel.ClickFact.browser f)]
               | Countries => [("country", SpecModel.ClickFact.country f)]
               | Regions => [("region", SpecModel.ClickFact.region f)]
               | Cities => [("city", SpecModel.ClickFact.city f);
                            ("country", SpecModel.ClickFact.country f)]
               end).
Proof.
  split; [reflexivity|]. split; [now intros []|]. split.
  - intros route link Hlink. rewrite grouped_handler_query.
    pose proof (getGroupedData_outcome
                  c key (UserContext.id user) days
                  (grouped_query route).1 (grouped_query route).2 w) as Hrun.
    rewrite Hlink in Hrun. exact (proj1 Hrun).
  - intros Hsvc route resp row. rewrite grouped_handler_query. intros Hresp Hrow.
    pose proof (getGroupedData_outcome
                  c key (UserContext.id user) days
                  (grouped_query route).1 (grouped_query route).2 w) as Hrun.
    destruct (fst (findLink c key (UserContext.id user) w)) as [link|e|];
      [|rewrite Hrun in Hresp; discriminate Hresp..].
    destruct Hrun as [_ Hdata]. destruct (Hdata resp Hresp) as [_ Hrows].
    rewrite Hsvc in Hrows.
    set (cols :=
           match route with
           | Devices => [("device", SpecModel.ClickFact.device)]
           | Os => [("os", SpecModel.ClickFact.os)]
           | Browsers => [("browser", SpecModel.ClickFact.browser)]
           | Countries => [("country", SpecModel.ClickFact.country)]
           | Regions => [("region", SpecModel.ClickFact.region)]
           | Cities => [("city", SpecModel.ClickFact.city);
                        ("country", SpecModel.ClickFact.country)]
           end).
    assert (Hcols : mapM (fun col => pair col <$> SpecModel.dimension col)
                         (SpecModel.group_columns (grouped_query route).1
                                                  (grouped_query route).2)
                    = Some cols)
      by (now destruct route).
    unfold SpecModel.getGroupedByField in Hrows. rewrite Hcols in Hrows.
    cbn [fst] in Hrows.
    assert (Hd : data resp
                 = fold_left
                     (fun rows f =>
                        SpecModel.add_to_group (SpecModel.fact_columns cols f) rows)
                     (filter (fun f =>
                                SpecModel.in_window (SpecModel.db_now (env w)) days
                                                    (LinkSelect.id link) f = true)
                             (SpecModel.db_facts (env w)))
                     [])
      by congruence.
    rewrite Hd in Hrow.
    apply grouped_rows_from_facts in Hrow
      as [Hnil%elem_of_nil|(f & Hf%list_elem_of_filter & Hrowcols)];
      [contradiction|].
    exists f. split; [exact (proj2 Hf)|].
    rewrite Hrowcols. now destruct route.
Qed.

End GroupedRows.

Section AnalyticsWitnesses.
Import Analytics Fixtures.

Lemma analytics_requires_owned_link_witness :
  getAnalytics analytics0 "abc1" 7 bob analytics_world0
  = (Rejected (NotFoundException "Link not found"),
     mkWorld db [ELinkFindUnique "abc1" "u-full"])
  /\ forall route,
       grouped_handler route analytics0 "abc1" 7 bob analytics_world0
       = (Rejected (NotFoundException "Link not found"),
          mkWorld db [ELinkFindUnique "abc1" "u-full"]).
Proof.
  apply (proj1 (analytics_requires_owned_link
                  analytics0 "abc1" 7 bob analytics_world0)).
  intros r Hr [Hkey Howner]. simpl in Hr.
  apply elem_of_cons in Hr as [->|Hr]; [discriminate Howner|].
  apply list_elem_of_singleton in Hr as ->. discriminate Hkey.
Defined.

Lemma grouped_dimensions_witness :
  exists f,
    f ∈ SpecModel.db_facts db
    /\ [("city", "Paris"); ("country", "US")]
       = [("city", SpecModel.ClickFact.city f);
          ("country", SpecModel.ClickFact.country f)].
Proof.
  apply (proj2 (proj2 (proj2 (grouped_dimensions
                                analytics0 "abc1" 7 alice analytics_world0)))
               eq_refl Cities
               (mkGroupedResponse
                  "https://example.com"
                  [SpecModel.mkGroupedRow [("city", "Paris"); ("country", "FR")] 2;
                   SpecModel.mkGroupedRow [("city", "Paris"); ("country", "US")] 1])
               (SpecModel.mkGroupedRow [("city", "Paris"); ("country", "US")] 1)
               eq_refl).
  apply list_elem_of_further, list_elem_of_here.
Defined.

End AnalyticsWitnesses.

(** * Further properties of the handlers *)

(** ** The calls of [findOne], [shortener] and [bulk] *)

Section HandlerCalls.
Import Shortener ShortenerCalls.
Context {E ClientDetails : Type}.
Implicit Types (c : ShortenerController E ClientDetails).
Implicit Types (w : World E ClientDetails).
Implicit Types (dto : ShortenerDto.t) (req : Request.t).

(** [bind] when what the first task returns is known to satisfy [R]. *)
Lemma adds_only_bind_when {A B} (Q : Event ClientDetails -> Prop)
    (R : A -> Prop) (m : Task (World E ClientDetails) A)
    (k : A -> Task (World E ClientDetails) B) :
  adds_only Q m ->
  (forall w a w', m w = (Fulfilled a, w') -> R a) ->
  (forall a, R a -> adds_only Q (k a)) ->
  adds_only Q (bind m k).
Proof.
  intros Hm HR Hk w. destruct (Hm w) as (evs1 & H1 & F1). unfold bind.
  destruct (m w) as [[a|e|] w1] eqn:Hrun; simpl in *; [|now exists evs1..].
  destruct (Hk a (HR w a w1 Hrun) w1) as (evs2 & H2 & F2).
  exists (evs1 ++ evs2). rewrite H2, H1, app_assoc. split; [reflexivity|].
  apply Forall_app. now split.
Qed.

Lemma filter_none {A} (f : A -> bool) (l : list A) :
  Forall (fun x => f x = false) l -> List.filter f l = [].
Proof.
  induction 1 as [|x l Hx _ IH]; simpl; [reflexivity|]. now rewrite Hx.
Qed.

Lemma trace_extension_unique w (t1 t2 : list (Event ClientDetails)) :
  trace w ++ t1 = trace w ++ t2 -> t1 = t2.
Proof. apply app_inv_head. Qed.

(** The lookup and the gate publish nothing. *)
Lemma findOne_gate_publishes_nothing c key password :
  adds_only (fun ev => is_publish ev = false) (findOne_gate c key password).
Proof.
  unfold findOne_gate. apply adds_only_bind; [now apply adds_only_call|].
  intros [data|]; [|apply adds_only_throw].
  destruct (truthy_string _) as [hash|]; [|apply adds_only_ret].
  apply adds_only_bind; [now apply adds_only_call|].
  intros []; [apply adds_only_ret | apply adds_only_throw].
Qed.

(** A click event is published exactly for the requests that pass the lookup
    and the password gate: such a request publishes one event, for the url
    and the key of the stored link, and a request that fails at the lookup or
    at the gate publishes none. *)
Theorem findOne_publishes_once_resolved c cd key pw req w :
  exists evs,
    trace (snd (findOne c cd key pw req w)) = trace w ++ evs
    /\ List.filter is_publish evs
       = match fst (findOne_gate c key (default "" pw) w) with
         | Fulfilled data => [EPublish (click_payload cd req data)]
         | _ => []
         end.
Proof.
  destruct (findOne_gate_publishes_nothing c key (default "" pw) w)
    as (evs & Htrace & Hnone).
  apply filter_none in Hnone.
  destruct (findOne_gate c key (default "" pw) w) as [[data|e|] w1] eqn:Hgate;
    simpl in *.
  - rewrite (findOne_after_gate c cd key pw req w data w1 Hgate).
    destruct (publish (shortenerProducer c) (click_payload cd req data) (env w1))
      as [[u|err|] e'] eqn:Hp.
    + rewrite (findOne_respond_published c cd req data w1 u e' Hp). simpl.
      exists (evs ++ [EPublish (click_payload cd req data)]).
      rewrite Htrace, <- app_assoc. split; [reflexivity|].
      now rewrite List.filter_app, Hnone.
    + destruct (message err) as [raised|msg] eqn:Hmsg.
      * rewrite (findOne_respond_catch_raised c cd req data w1 err e' raised
                   Hp Hmsg).
        simpl.
        exists (evs ++ [EPublish (click_payload cd req data)]).
        rewrite Htrace, <- app_assoc. split; [reflexivity|].
        now rewrite List.filter_app, Hnone.
      * rewrite (findOne_respond_publish_failed c cd req data w1 err e' msg
                   Hp Hmsg).
        simpl.
        exists (evs ++ [EPublish (click_payload cd req data);
                        ELoggerError ("Error while publishing shortened url: "
                                      +:+ msg)]).
        rewrite Htrace, <- !app_assoc. split; [reflexivity|].
        now rewrite List.filter_app, Hnone.
    + rewrite (findOne_respond_publish_pending c cd req data w1 e' Hp). simpl.
      exists (evs ++ [EPublish (click_payload cd req data)]).
      rewrite Htrace, <- app_assoc. split; [reflexivity|].
      now rewrite List.filter_app, Hnone.
  - rewrite (findOne_gate_rejected c cd key pw req w e w1 Hgate). simpl.
    now exists evs.
  - rewrite (findOne_gate_pending c cd key pw req w w1 Hgate). simpl.
    now exists evs.
Qed.

(** The steps of [shortener] before the creation only make their own
    call. *)
Lemma check_safe_url_adds (Q : Event ClientDetails -> Prop) c url :
  Q (EIsSafeUrl url) -> adds_only Q (check_safe_url c url).
Proof.
  intros HQ. unfold check_safe_url.
  destruct (safeUrl_enable _); [|apply adds_only_ret].
  apply adds_only_bind; [now apply adds_only_call|].
  intros []; [apply adds_only_ret | apply adds_only_throw].
Qed.

Lemma check_key_available_adds (Q : Event ClientDetails -> Prop) c key :
  (forall k, Q (EIsKeyAvailable k)) -> adds_only Q (check_key_available c key).
Proof.
  intros HQ. unfold check_key_available.
  destruct (truthy_string _); [|apply adds_only_ret].
  apply adds_only_bind; [now apply adds_only_call|].
  intros []; [apply adds_only_ret | apply adds_only_throw].
Qed.

Lemma hash_dto_password_adds (Q : Event ClientDetails -> Prop) c dto :
  (forall pw, Q (EHashPassword pw)) -> adds_only Q (hash_dto_password c dto).
Proof.
  intros HQ. unfold hash_dto_password.
  destruct (truthy_string _); [|apply adds_only_ret].
  apply adds_only_bind; [now apply adds_only_call|].
  intros hashed. apply adds_only_ret.
Qed.

Lemma hash_dto_password_result c dto w dto' w' :
  hash_dto_password c dto w = (Fulfilled dto', w') ->
  dto' = dto \/ exists hashed, dto' = ShortenerDto.set_password (Some hashed) dto.
Proof.
  intros H. apply hash_dto_password_done in H.
  destruct (truthy_string _); [|now left].
  destruct H as (hashed & -> & _). right. now exists hashed.
Qed.

(** A task whose calls end with the one creation, if there is one. *)
Lemma ends_with_creation_none {A} (t : Task (World E ClientDetails) A) :
  adds_only (fun ev => is_creation ev = false) t ->
  forall w, exists evs,
    trace (snd (t w)) = trace w ++ evs /\ ends_with_creation evs.
Proof.
  intros Ht w. destruct (Ht w) as (evs & Htrace & Hnone).
  exists evs. split; [exact Htrace|]. left. now apply filter_none.
Qed.

Lemma ends_with_creation_call {A} ev (svc : Service E A) :
  is_creation ev = true ->
  forall w, exists evs,
    trace (snd (call ev svc w)) = trace w ++ evs /\ ends_with_creation evs.
Proof.
  intros Hev w. exists [ev]. unfold call.
  destruct (svc (env w)) as [p e']. simpl. split; [reflexivity|].
  right. exists [], ev. now repeat split.
Qed.

Lemma ends_with_creation_bind {A B} (m : Task (World E ClientDetails) A)
    (k : A -> Task (World E ClientDetails) B) :
  adds_only (fun ev => is_creation ev = false) m ->
  (forall a w, exists evs,
      trace (snd (k a w)) = trace w ++ evs /\ ends_with_creation evs) ->
  forall w, exists evs,
    trace (snd (bind m k w)) = trace w ++ evs /\ ends_with_creation evs.
Proof.
  intros Hm Hk w. destruct (Hm w) as (evs1 & H1 & F1%filter_none). unfold bind.
  destruct (m w) as [[a|e|] w1]; simpl in *;
    [|exists evs1; split; [exact H1 | now left]..].
  destruct (Hk a w1) as (evs2 & H2 & Hends).
  exists (evs1 ++ evs2). rewrite H2, H1, app_assoc. split; [reflexivity|].
  destruct Hends as [Hnone|(pre & ev & -> & Hev & Hpre)].
  - left. now rewrite List.filter_app, F1, Hnone.
  - right. exists (evs1 ++ pre), ev. rewrite app_assoc.
    repeat split; [exact Hev|]. now rewrite List.filter_app, F1, Hpre.
Qed.

Lemma shortener_ends_with_creation c dto req w :
  exists evs,
    trace (snd (shortener c dto req w)) = trace w ++ evs
    /\ ends_with_creation evs.
Proof.
  revert w. unfold shortener.
  apply ends_with_creation_bind; [now apply check_safe_url_adds|].
  intros _. apply ends_with_creation_bind; [now apply check_key_available_adds|].
  intros _. destruct (truthy_bool _).
  { now apply ends_with_creation_call. }
  destruct (verified_user _) as [user|];
    [|apply ends_with_creation_none, adds_only_throw].
  apply ends_with_creation_bind; [now apply hash_dto_password_adds|].
  intros dto'. apply ends_with_creation_bind; [now apply adds_only_call|].
  intros []; [|apply ends_with_creation_none, adds_only_throw].
  apply ends_with_creation_bind; [now apply adds_only_logger_log|].
  intros _. now apply ends_with_creation_call.
Qed.

Lemma shortener_creation_allowed c dto req :
  adds_only (creation_allowed dto req) (shortener c dto req).
Proof.
  unfold shortener.
  apply adds_only_bind; [now apply check_safe_url_adds|].
  intros _. apply adds_only_bind; [now apply check_key_available_adds|].
  intros _. destruct (truthy_bool _) eqn:Htemp.
  { apply adds_only_call. now split. }
  destruct (verified_user _) as [user|] eqn:Huser; [|apply adds_only_throw].
  apply (adds_only_bind_when _
           (fun dto' => dto' = dto
                        \/ exists hashed,
                            dto' = ShortenerDto.set_password (Some hashed) dto)).
  { now apply hash_dto_password_adds. }
  { intros w dto' w'. apply hash_dto_password_result. }
  intros dto' Hdto'. apply adds_only_bind; [now apply adds_only_call|].
  intros []; [|apply adds_only_throw].
  apply adds_only_bind; [now apply adds_only_logger_log|].
  intros _. apply adds_only_call. simpl. now repeat split.
Qed.

(** Whatever the outcome of its steps, [shortener] creates at most one link,
    by its last call, every check coming before; the creation is that of a
    temporary link from the request without its password when the request
    has the temporary flag, and otherwise that of a user's link for the
    verified user of the request. *)
Theorem shortener_creates_once_at_the_end c dto req w :
  exists evs,
    trace (snd (shortener c dto req w)) = trace w ++ evs
    /\ ends_with_creation evs
    /\ Forall (creation_allowed dto req) evs.
Proof.
  destruct (shortener_ends_with_creation c dto req w) as (evs & Htrace & Hends).
  destruct (shortener_creation_allowed c dto req w) as (evs' & Htrace' & Hallowed).
  rewrite Htrace in Htrace'. apply trace_extension_unique in Htrace' as <-.
  now exists evs.
Qed.

(** A url that the safe-url service refuses creates nothing: [shortener]
    rejects the request after that one check, and [bulk] gives no result and
    creates no link for any item of a request that has the url among its
    items, its only calls being the checks of the submitted urls. *)
Theorem unsafe_url_creates_nothing c url :
  safeUrl_enable (configService c) = true ->
  (forall e, exists e',
      isSafeUrl (safeUrlService c) url e = (Fulfilled false, e')) ->
  (forall dto req w,
      ShortenerDto.url dto = url ->
      exists e',
        shortener c dto req w
        = (Rejected (BadRequestException "This url is not safe to shorten!"),
           mkWorld e' (trace w ++ [EIsSafeUrl url])))
  /\ (forall dtos req w dto,
        dto ∈ dtos -> ShortenerDto.url dto = url ->
        (forall r, fst (bulk c dtos req w) <> Fulfilled r)
        /\ trace (snd (bulk c dtos req w))
           = trace w ++ map (fun d => EIsSafeUrl (ShortenerDto.url d)) dtos).
Proof.
  intros Henabled Hunsafe. split.
  - intros dto req w <-. destruct (Hunsafe (env w)) as (e' & Hcall).
    exists e'. unfold shortener, check_safe_url, bind, call.
    now rewrite Henabled, Hcall.
  - intros dtos req w dto Hin <-.
    pose proof (check_safe_urls_unsafe c dtos dto w Henabled Hunsafe Hin) as Hnot.
    pose proof (check_safe_urls_trace c dtos w) as Htrace.
    unfold safe_url_events in Htrace. rewrite Henabled in Htrace.
    unfold bulk, bind.
    destruct (check_safe_urls c dtos w) as [[u|e|] w1]; simpl in *.
    + now destruct (Hnot u).
    + split; [discriminate | exact Htrace].
    + split; [discriminate | exact Htrace].
Qed.

(** For a user whose quota the usage service reports as used up,
    [shortener] never creates a user's link; a request of that user that is
    fulfilled is one for a temporary link, which no quota applies to. *)
Theorem exhausted_quota_blocks_user_links c userId :
  (forall e, exists e',
      isEligibleToCreateLink (usageService c) userId e = (Fulfilled false, e')) ->
  (forall dto req,
      adds_only (not_users_link_of userId) (shortener c dto req))
  /\ (forall dto req w r w' user,
        shortener c dto req w = (Fulfilled r, w') ->
        Request.user req = Some user ->
        UserContext.id user = userId ->
        truthy_bool (ShortenerDto.temporary dto) = true).
Proof.
  intros Hquota.
  assert (Hnever : forall dto req,
             adds_only (not_users_link_of userId) (shortener c dto req)).
  { intros dto req. unfold shortener.
    apply adds_only_bind; [now apply check_safe_url_adds|].
    intros _. apply adds_only_bind; [now apply check_key_available_adds|].
    intros _. destruct (truthy_bool _).
    { now apply adds_only_call. }
    destruct (verified_user _) as [user|]; [|apply adds_only_throw].
    apply adds_only_bind; [now apply hash_dto_password_adds|].
    intros dto'.
    apply (adds_only_bind_when _
             (fun ok : bool => UserContext.id user = userId -> ok = false)).
    { now apply adds_only_call. }
    { intros w ok w' Hcall Hid. unfold call in Hcall. rewrite Hid in Hcall.
      destruct (Hquota (env w)) as (e' & Hfalse). rewrite Hfalse in Hcall.
      now inversion Hcall. }
    intros ok Hok.
    destruct (decide (UserContext.id user = userId)) as [Hid|Hid].
    - rewrite (Hok Hid). apply adds_only_throw.
    - destruct ok; [|apply adds_only_throw].
      apply adds_only_bind; [now apply adds_only_logger_log|].
      intros _. now apply adds_only_call. }
  split; [exact Hnever|].
  intros dto req w r w' user Hrun Huser Hid.
  destruct (truthy_bool (ShortenerDto.temporary dto)) eqn:Htemp; [reflexivity|].
  destruct (shortener_performs c dto req w r w' Hrun)
    as (evs & Htrace & _ & _ & Hnontemp).
  destruct (Hnontemp Htemp) as (user' & Hverified & _ & Hcreated).
  assert (user' = user) as ->.
  { rewrite Huser in Hverified. simpl in Hverified.
    destruct (UserContext.verified user); now inversion Hverified. }
  destruct (Hnever dto req w) as (evs' & Htrace' & Hnone).
  rewrite Hrun in Htrace'. simpl in Htrace'. rewrite Htrace in Htrace'.
  apply trace_extension_unique in Htrace' as <-.
  rewrite Forall_forall in Hnone.
  destruct (truthy_string (ShortenerDto.password dto)).
  - destruct Hcreated as (hashed & _ & Hin). now destruct (Hnone _ Hin).
  - now destruct (Hnone _ Hcreated).
Qed.

(** A fulfilled [bulk] answers with one key for each submitted item, in the
    order of the items: the key that the creation of the item for the
    verified user returned. *)
Theorem bulk_keys_follow_items c dtos req w r w' :
  bulk c dtos req w = (Fulfilled r, w') ->
  length (BulkCreated.keys r) = length dtos
  /\ exists user,
       verified_user (Request.user req) = Some user
       /\ Forall2 (fun dto key =>
                     exists created e e',
                       createUsersShortenedUrl (shortenerService c) user dto e
                       = (Fulfilled created, e')
                       /\ Created.key created = key)
                  dtos (BulkCreated.keys r).
Proof.
  unfold bulk, bind.
  destruct (check_safe_urls c dtos w) as [[u|e|] w1]; try discriminate.
  destruct (verified_user (Request.user req)) as [user|]; try discriminate.
  unfold logger_log.
  destruct (promise_all _ _) as [[created|e|] w2] eqn:Hall; try discriminate.
  intros H. inversion H; subst. simpl.
  apply promise_all_fulfilled in Hall.
  split.
  - rewrite length_map. symmetry. exact (Forall2_length _ _ _ Hall).
  - exists user. split; [reflexivity|].
    clear -Hall. induction Hall as [|dto cr dtos created (e & e' & Hcall) _ IH];
      simpl; constructor; [|exact IH].
    now exists cr, e, e'.
Qed.

(** The request of a verified user for no item at all is fulfilled with no
    key; its only call is the log line. *)
Theorem bulk_of_nothing c req w user :
  verified_user (Request.user req) = Some user ->
  bulk c [] req w
  = (Fulfilled (BulkCreated.mk []),
     mkWorld (env w)
       (trace w
        ++ [ELoggerLog ("User " +:+ UserContext.id user
                        +:+ " is creating a bulk-shortened url for 0 urls")])).
Proof.
  intros Huser. unfold bulk, check_safe_urls, bind. rewrite Huser.
  destruct (safeUrl_enable (configService c)); reflexivity.
Qed.

(** In every run of [bulk], either no creation is started, or the creation
    of every submitted item is, in the order of the items and whatever the
    outcome of the others. *)
Lemma bulk_creations c dtos req w :
  exists evs,
    trace (snd (bulk c dtos req w)) = trace w ++ evs
    /\ (List.filter is_creation evs = []
        \/ exists user,
             verified_user (Request.user req) = Some user
             /\ List.filter is_creation evs
                = map (ECreateUsersShortenedUrl user) dtos).
Proof.
  unfold bulk, bind.
  pose proof (check_safe_urls_trace c dtos w) as Hsafe.
  assert (Hnone : List.filter is_creation (safe_url_events c dtos) = []).
  { apply filter_none. unfold safe_url_events.
    destruct (safeUrl_enable _); [|constructor].
    apply List.Forall_map, Forall_forall. now intros. }
  destruct (check_safe_urls c dtos w) as [[u|e|] w1]; simpl in Hsafe;
    [|exists (safe_url_events c dtos); split; [exact Hsafe | now left]..].
  destruct (verified_user (Request.user req)) as [user|] eqn:Hv;
    [|exists (safe_url_events c dtos); split; [exact Hsafe | now left]].
  unfold logger_log.
  match goal with
  | |- context [promise_all ?ms ?w0] =>
      pose proof (promise_all_calls
                    (fun dto => ECreateUsersShortenedUrl user dto)
                    (fun dto => createUsersShortenedUrl (shortenerService c) user dto)
                    dtos w0) as Hcreate;
      destruct (promise_all ms w0) as [[keys|e|] w2]
  end; simpl in *; rewrite Hcreate, Hsafe, <- !app_assoc;
    (eexists; split; [reflexivity|]); right; exists user;
    (split; [reflexivity|]);
    rewrite List.filter_app, Hnone; simpl;
    clear; induction dtos as [|dto dtos IH]; simpl; congruence.
Qed.

End HandlerCalls.

Section HandlerCallsWitnesses.
Import Shortener ShortenerCalls Fixtures MoreFixtures.

(** [bulk] starts the creation of every submitted item or of none, in the
    order of the items and whatever the outcome of the others, so a request
    that [bulk] rejects can have created links: with a creation that fails on
    a taken key, the request for a taken key and a free one is rejected after
    both creations were started, the second of which succeeds. *)
Theorem bulk_starts_every_creation :
  (forall E ClientDetails (c : ShortenerController E ClientDetails) dtos req w,
      exists evs,
        trace (snd (bulk c dtos req w)) = trace w ++ evs
        /\ (List.filter is_creation evs = []
            \/ exists user,
                 verified_user (Request.user req) = Some user
                 /\ List.filter is_creation evs
                    = map (ECreateUsersShortenedUrl user) dtos))
  /\ fst (bulk controller_unique [taken_key_with_password; with_password]
               from_alice world0)
     = Rejected (Error "Unique constraint failed on the fields: (`key`)")
  /\ List.filter is_creation
       (trace (snd (bulk controller_unique
                         [taken_key_with_password; with_password]
                         from_alice world0)))
     = [ECreateUsersShortenedUrl alice taken_key_with_password;
        ECreateUsersShortenedUrl alice with_password]
  /\ fst (createUsersShortenedUrl (shortenerService controller_unique) alice
                                  with_password store)
     = Fulfilled (Created.mk "free1").
Proof.
  split.
  { intros E ClientDetails c dtos req w. apply bulk_creations. }
  repeat split.
Qed.

Lemma unsafe_url_creates_nothing_witness :
  (exists e',
      shortener controller0 (dto_of_url "http://malware.test") from_alice world0
      = (Rejected (BadRequestException "This url is not safe to shorten!"),
         mkWorld e' ([] ++ [EIsSafeUrl "http://malware.test"])))
  /\ trace (snd (bulk controller0
                      [with_password; dto_of_url "http://malware.test"]
                      from_alice world0))
     = [] ++ [EIsSafeUrl "https://example.com/p";
              EIsSafeUrl "http://malware.test"].
Proof.
  assert (Hunsafe : forall e : SpecModel.LinkStore, exists e',
             isSafeUrl (safeUrlService controller0) "http://malware.test" e
             = (Fulfilled false, e'))
    by (intros e; now exists e).
  destruct (unsafe_url_creates_nothing controller0 "http://malware.test"
              eq_refl Hunsafe) as [Hsingle Hbulk].
  split.
  - exact (Hsingle (dto_of_url "http://malware.test") from_alice world0 eq_refl).
  - refine (proj2 (Hbulk [with_password; dto_of_url "http://malware.test"]
                         from_alice world0
                         (dto_of_url "http://malware.test") _ eq_refl)).
    apply list_elem_of_further, list_elem_of_here.
Defined.

Lemma exhausted_quota_blocks_user_links_witness :
  adds_only (not_users_link_of "u-full")
            (shortener controller0 with_password from_bob).
Proof.
  refine (proj1 (exhausted_quota_blocks_user_links controller0 "u-full" _)
                with_password from_bob).
  intros e. now exists e.
Defined.

Lemma bulk_keys_follow_items_witness :
  length ["abc1"; "free1"] = length [taken_key_with_password; with_password].
Proof.
  exact (proj1 (bulk_keys_follow_items
                  controller0 [taken_key_with_password; with_password]
                  from_alice world0 (BulkCreated.mk ["abc1"; "free1"])
                  (snd (bulk controller0
                             [taken_key_with_password; with_password]
                             from_alice world0))
                  eq_refl)).
Defined.

Lemma bulk_of_nothing_witness :
  bulk controller0 [] from_alice world0
  = (Fulfilled (BulkCreated.mk []),
     mkWorld store
       [ELoggerLog "User u-alice is creating a bulk-shortened url for 0 urls"]).
Proof. exact (bulk_of_nothing controller0 from_alice world0 alice eq_refl). Defined.

End HandlerCallsWitnesses.

(** ** The link modal *)

Section LinkModalProperties.
Import LinkModal.

Lemma truthy_string_some (v : option string) (s : string) :
  truthy_string v = Some s -> v = Some s /\ s <> "".
Proof.
  destruct v as [x|]; simpl; [|discriminate].
  destruct (decide (x = "")); [discriminate|]. intros H. inversion H; subst.
  now split.
Qed.

Lemma when_toggled_some (toggle value : option string) (s : string) :
  when_toggled toggle value = Some s ->
  truthy toggle = true /\ value = Some s /\ s <> "".
Proof.
  unfold when_toggled. destruct (truthy toggle); [|discriminate].
  intros H%truthy_string_some. now split.
Qed.

Lemma sent_utm_passes_dto (toggle value : option string) :
  schema_utm value = true ->
  DtoFields.ShortenerDto_utm (when_toggled toggle value) = true.
Proof.
  intros Hschema.
  destruct (when_toggled toggle value) as [s|] eqn:Hsent; [|reflexivity].
  apply when_toggled_some in Hsent as (_ & -> & _). exact Hschema.
Qed.

(** What the schema has checked of a form that it accepts. *)
Lemma CreateLinkInputSchema_accepted url_pattern f i :
  CreateLinkInputSchema url_pattern f = Some i ->
  Validation.CreateLinkInputSchema_key (Input.key i) = true
  /\ schema_password (Input.passwordProtection i) = true
  /\ (schema_utm (Input.utm_ref i) = true
      /\ schema_utm (Input.utm_source i) = true
      /\ schema_utm (Input.utm_medium i) = true
      /\ schema_utm (Input.utm_campaign i) = true
      /\ schema_utm (Input.utm_term i) = true
      /\ schema_utm (Input.utm_content i) = true)
  /\ toggled_without_value (Input.expirationTimeToggle i)
                           (Input.expirationTime i) = false
  /\ toggled_without_value (Input.passwordProtectionToggle i)
                           (Input.passwordProtection i) = false.
Proof.
  unfold CreateLinkInputSchema.
  destruct (schema_url _ _) as [url|]; [|discriminate].
  match goal with |- (if ?b then _ else _) = _ -> _ => destruct b eqn:Hchecks end;
    [|discriminate].
  intros H. inversion H; subst; clear H. simpl.
  rewrite !andb_true_iff, !negb_true_iff in Hchecks. tauto.
Qed.

(** A form that the schema accepts is always sent: the checks that the
    action makes itself on the two toggles repeat the refinements of the
    schema, so its failure with status 400 is never taken. *)
Theorem accepted_form_is_sent url_pattern normalizeUrl date_to_ms f i :
  CreateLinkInputSchema url_pattern f = Some i ->
  useCreateLink_prepare normalizeUrl date_to_ms i
  = Send (request_body normalizeUrl date_to_ms i).
Proof.
  intros H. apply CreateLinkInputSchema_accepted in H as (_ & _ & _ & He & Hp).
  unfold useCreateLink_prepare, fieldErrors. now rewrite He, Hp.
Qed.

(** A number in decimal digits is not the empty string. *)
Lemma pretty_N_go_nonempty (x : N) (s : string) :
  s <> "" -> pretty_N_go x s <> "".
Proof.
  revert s. induction (N.lt_wf_0 x) as [x _ IH]; intros s Hs.
  assert (Hx : (x = 0 \/ 0 < x)%N) by lia. destruct Hx as [->|Hpos].
  - now rewrite pretty_N_go_0.
  - rewrite pretty_N_go_step by exact Hpos. apply IH; [|discriminate].
    now apply N.div_lt.
Qed.

Lemma pretty_N_nonempty (x : N) : pretty x <> "".
Proof.
  unfold pretty, pretty_N. destruct (decide (x = 0%N)) as [|Hx]; [discriminate|].
  rewrite pretty_N_go_step by lia. apply pretty_N_go_nonempty. discriminate.
Qed.

Lemma pretty_Z_nonempty (z : Z) : pretty z <> "".
Proof.
  destruct z as [|x|x]; [discriminate | apply (pretty_N_nonempty (N.pos x)) |].
  discriminate.
Qed.

Lemma getTime_toString_nonempty getTime (s : string) :
  getTime_toString getTime s <> "".
Proof.
  unfold getTime_toString. destruct (getTime s) as [ms|]; [|discriminate].
  apply pretty_Z_nonempty.
Qed.

(** The request that the modal sends for an accepted form passes the
    validators that the backend DTO has for the key and the UTM fields, its
    password has 6 to 25 characters, and none of its optional fields is an
    empty string: the key, the password and the UTM fields because an empty
    value is left out of the body, whatever the conversion of the date, and
    the expiration time because it is the time value of the date in decimal
    digits, or "NaN". *)
Theorem sent_body_passes_dto url_pattern normalizeUrl date_to_ms f i :
  CreateLinkInputSchema url_pattern f = Some i ->
  let body := request_body normalizeUrl date_to_ms i in
  Validation.ShortenerDto_key (Body.key body) = true
  /\ Forall (fun v => DtoFields.ShortenerDto_utm v = true)
            [Body.utm_ref body; Body.utm_source body; Body.utm_medium body;
             Body.utm_campaign body; Body.utm_term body; Body.utm_content body]
  /\ (forall p, Body.password body = Some p ->
                6 <= String.length p <= 25)
  /\ Forall (fun v => v <> Some "")
            [Body.key body; Body.password body; Body.utm_ref body;
             Body.utm_source body; Body.utm_medium body;
             Body.utm_campaign body; Body.utm_term body; Body.utm_content body]
  /\ (forall getTime,
        let sent := request_body normalizeUrl (getTime_toString getTime) i in
        Body.expirationTime sent <> Some ""
        /\ Forall (fun v => v <> Some "")
                  [Body.key sent; Body.expirationTime sent; Body.password sent;
                   Body.utm_ref sent; Body.utm_source sent;
                   Body.utm_medium sent; Body.utm_campaign sent;
                   Body.utm_term sent; Body.utm_content sent]
        /\ (Body.expirationTime sent = None
            <-> truthy_string (Input.expirationTime i) = None)).
Proof.
  intros H. apply CreateLinkInputSchema_accepted in H
    as (Hkey & Hpw & (H1 & H2 & H3 & H4 & H5 & H6) & _ & _).
  assert (Ht : forall v, truthy_string v <> Some "").
  { intros v Hv. now apply truthy_string_some in Hv as [_ Hne]. }
  assert (Hw : forall t v, when_toggled t v <> Some "").
  { intros t v Hv. now apply when_toggled_some in Hv as (_ & _ & Hne). }
  simpl. split; [|split; [|split; [|split]]].
  - destruct (truthy_string (Input.key i)) as [k|] eqn:Hk; [|reflexivity].
    apply truthy_string_some in Hk as [Hk Hne]. rewrite Hk in Hkey.
    apply CreateLinkInputSchema_key_accepts in Hkey as [->|Hfmt]; [congruence|].
    apply ShortenerDto_key_length. unfold Validation.spec_key_format in Hfmt.
    rewrite !andb_true_iff, !Nat.leb_le in Hfmt. exact (proj1 Hfmt).
  - repeat constructor; now apply sent_utm_passes_dto.
  - intros p [Hp _]%truthy_string_some. rewrite Hp in Hpw.
    unfold schema_password in Hpw.
    rewrite andb_true_iff, !Nat.leb_le in Hpw. exact Hpw.
  - repeat constructor; auto.
  - intros getTime.
    assert (Hexp : getTime_toString getTime
                     <$> truthy_string (Input.expirationTime i) <> Some "").
    { destruct (truthy_string (Input.expirationTime i)) as [d|];
        [|discriminate].
      simpl. intros Hd. inversion Hd as [Hempty].
      exact (getTime_toString_nonempty getTime d Hempty). }
    split; [exact Hexp|]. split; [repeat constructor; auto|].
    destruct (truthy_string (Input.expirationTime i)); simpl;
      split; congruence.
Qed.

Lemma set_input_lookup key v (m : gmap string string) k :
  set_input key v m !! k = if decide (key = k) then v else m !! k.
Proof.
  destruct v as [x|]; simpl; [apply lookup_insert | apply lookup_delete].
Qed.

(** One step of the loop of [toggleOption], when [action.value] is
    undefined or has field errors. *)
Lemma reset_key_normal v st key :
  actionValue st <> Value None ->
  exists st',
    reset_key v st key = Normal st'
    /\ inputValue st' = set_input key v (inputValue st)
    /\ (actionValue st = NoValue -> actionValue st' = NoValue)
    /\ (forall errors,
          actionValue st = Value (Some errors) ->
          exists errors',
            actionValue st' = Value (Some errors')
            /\ forall k,
                 errors' !! k
                 = if decide (key = k) then (fun _ => []) <$> errors !! k
                   else errors !! k).
Proof.
  intros Hvalue. unfold reset_key. simpl.
  destruct (actionValue st) as [|[errors|]] eqn:Haction; [| |contradiction].
  - eexists. split; [reflexivity|]. simpl.
    split; [reflexivity|]. split; [auto | discriminate].
  - destruct (errors !! key) as [msgs|] eqn:Hkey.
    + eexists. split; [reflexivity|]. simpl.
      split; [reflexivity|]. split; [discriminate|].
      intros errors0 H. inversion H; subst errors0. eexists.
      split; [reflexivity|]. intros k. rewrite lookup_insert.
      destruct (decide (key = k)) as [<-|]; [now rewrite Hkey | reflexivity].
    + eexists. split; [reflexivity|]. simpl.
      split; [reflexivity|]. split; [discriminate|].
      intros errors0 H. inversion H; subst errors0. eexists.
      split; [reflexivity|]. intros k.
      destruct (decide (key = k)) as [<-|]; [now rewrite Hkey | reflexivity].
Qed.

Lemma reset_keys_normal v keys st :
  actionValue st <> Value None ->
  exists st',
    reset_keys v keys st = Normal st'
    /\ (forall k,
          inputValue st' !! k
          = if decide (k ∈ keys) then v else inputValue st !! k)
    /\ (actionValue st = NoValue -> actionValue st' = NoValue)
    /\ (forall errors,
          actionValue st = Value (Some errors) ->
          exists errors',
            actionValue st' = Value (Some errors')
            /\ forall k,
                 errors' !! k
                 = if decide (k ∈ keys) then (fun _ => []) <$> errors !! k
                   else errors !! k).
Proof.
  revert st. induction keys as [|key keys IH]; intros st Hvalue; simpl.
  - exists st. split; [reflexivity|]. split; [|split].
    + intros k. destruct (decide (k ∈ [])) as [Hin|]; [|reflexivity].
      now apply elem_of_nil in Hin.
    + auto.
    + intros errors H. exists errors. split; [exact H|]. intros k.
      destruct (decide (k ∈ [])) as [Hin|]; [|reflexivity].
      now apply elem_of_nil in Hin.
  - destruct (reset_key_normal v st key Hvalue)
      as (st1 & -> & Hinput1 & Hnone1 & Herrors1).
    assert (Hvalue1 : actionValue st1 <> Value None).
    { destruct (actionValue st) as [|[errors|]] eqn:Haction; [| |contradiction].
      - now rewrite Hnone1.
      - destruct (Herrors1 errors eq_refl) as (errors' & -> & _). discriminate. }
    destruct (IH st1 Hvalue1) as (st' & Hrun & Hinput & Hnone & Herrors).
    exists st'. split; [exact Hrun|]. split; [|split].
    + intros k. rewrite Hinput, Hinput1, set_input_lookup.
      destruct (decide (k ∈ keys)) as [Hin|Hnin].
      * rewrite decide_True; [reflexivity | now apply list_elem_of_further].
      * destruct (decide (key = k)) as [<-|Hne].
        -- rewrite decide_True; [reflexivity | apply list_elem_of_here].
        -- rewrite decide_False; [reflexivity|].
           intros [->|Hin]%elem_of_cons; contradiction.
    + auto.
    + intros errors Haction.
      destruct (Herrors1 errors Haction) as (errors1 & Haction1 & Hlookup1).
      destruct (Herrors errors1 Haction1) as (errors' & Haction' & Hlookup').
      exists errors'. split; [exact Haction'|]. intros k.
      rewrite Hlookup', Hlookup1.
      destruct (decide (k ∈ key :: keys)) as [Hcons|Hcons],
               (decide (k ∈ keys)) as [Hin|Hnin],
               (decide (key = k)) as [<-|Hne];
        try reflexivity;
        try (match goal with
             | |- context [errors !! ?x] => now destruct (errors !! x)
             end);
        exfalso;
        first [ apply Hcons; apply list_elem_of_here
              | apply Hcons; now apply list_elem_of_further
              | apply elem_of_cons in Hcons as [Heq|Hin'];
                [now symmetry in Heq | contradiction] ].
Qed.

(** Switching an option off, when no action result is there or the result
    has field errors: the handler ends normally, every listed field of the
    form reads as the reset value and the other fields are as before, and the
    error lists of the listed fields are emptied, the others kept.  Switching
    an option on changes nothing but the switch. *)
Theorem toggleOption_resets_fields keys resetValue st :
  actionValue st <> Value None ->
  toggleOption false (Some keys) resetValue st = (true, Normal st)
  /\ exists st',
       toggleOption true (Some keys) resetValue st = (false, Normal st')
       /\ (forall k,
             inputValue st' !! k
             = if decide (k ∈ keys) then resetValue else inputValue st !! k)
       /\ (actionValue st = NoValue -> actionValue st' = NoValue)
       /\ (forall errors,
             actionValue st = Value (Some errors) ->
             exists errors',
               actionValue st' = Value (Some errors')
               /\ forall k,
                    errors' !! k
                    = if decide (k ∈ keys) then (fun _ => []) <$> errors !! k
                      else errors !! k).
Proof.
  intros Hvalue. split; [reflexivity|].
  destruct (reset_keys_normal resetValue keys st Hvalue)
    as (st' & Hrun & Hrest).
  exists st'. split; [|exact Hrest]. unfold toggleOption. simpl.
  now rewrite Hrun.
Qed.

(** Switching an option off when the action has a result without field
    errors (a created link, or a failed request): the switch goes off, the
    first listed field is reset, and the handler ends there by a type error;
    the other listed fields keep the value they had. *)
Theorem toggleOption_raises_without_fieldErrors key rest resetValue st :
  actionValue st = Value None ->
  exists st',
    toggleOption true (Some (key :: rest)) resetValue st = (false, TypeError st')
    /\ inputValue st' !! key = resetValue
    /\ (forall k, k <> key -> inputValue st' !! k = inputValue st !! k)
    /\ actionValue st' = Value None.
Proof.
  intros Haction. unfold toggleOption, reset_keys, reset_key. simpl.
  rewrite Haction. eexists. split; [reflexivity|]. simpl.
  split; [|split; [|reflexivity]].
  - rewrite set_input_lookup. now rewrite decide_True.
  - intros k Hk. rewrite set_input_lookup. now rewrite decide_False.
Qed.

End LinkModalProperties.

Section LinkModalWitnesses.
Import LinkModal MoreFixtures.

Lemma accepted_form_is_sent_witness :
  useCreateLink_prepare (fun u => "https://" +:+ u) (fun d => d) input0
  = Send (Body.mk "https://example.com/docs" (Some "my-docs") None
                  (Some "s3cret!") None None None None None None).
Proof.
  exact (accepted_form_is_sent (fun _ => true) (fun u => "https://" +:+ u)
                               (fun d => d) form0 input0 eq_refl).
Defined.

Lemma sent_body_passes_dto_witness :
  Validation.ShortenerDto_key (Some "my-docs") = true.
Proof.
  exact (proj1 (sent_body_passes_dto (fun _ => true) (fun u => "https://" +:+ u)
                                     (fun d => d) form0 input0 eq_refl)).
Defined.

Lemma toggleOption_resets_fields_witness :
  toggleOption false (Some ["utm_ref"; "utm_source"]) None modal_refused
  = (true, Normal modal_refused).
Proof.
  refine (proj1 (toggleOption_resets_fields ["utm_ref"; "utm_source"] None
                                            modal_refused _)).
  discriminate.
Defined.

Lemma toggleOption_raises_without_fieldErrors_witness :
  exists st',
    toggleOption true (Some ["utm_ref"; "utm_source"]) None modal_failed
    = (false, TypeError st')
    /\ inputValue st' !! "utm_ref" = None
    /\ (forall k, k <> "utm_ref" ->
                  inputValue st' !! k = inputValue modal_failed !! k)
    /\ actionValue st' = Value None.
Proof.
  exact (toggleOption_raises_without_fieldErrors
           "utm_ref" ["utm_source"] None modal_failed eq_refl).
Defined.

End LinkModalWitnesses.

(** ** The list of links of the dashboard *)

Section LinksViewProperties.
Import LinksView.
Local Open Scope Z_scope.

Lemma map_has_app k (m1 m2 : LinksMap) :
  map_has k (m1 ++ m2) = map_has k m1 || map_has k m2.
Proof. apply existsb_app. Qed.

Lemma map_has_keys k (m : LinksMap) : map_has k m = true <-> k ∈ m.*1.
Proof.
  unfold map_has. induction m as [|[k' v] m IH]; simpl.
  - split; [discriminate | intros H; now apply elem_of_nil in H].
  - rewrite orb_true_iff, bool_decide_eq_true, IH, elem_of_cons.
    split; intros [H|H]; auto.
Qed.

Lemma map_set_new k v (m : LinksMap) :
  map_has k m = false -> map_set k v m = m ++ [(k, v)].
Proof.
  unfold map_has. induction m as [|[k' v'] m IH]; simpl; [reflexivity|].
  rewrite orb_false_iff, bool_decide_eq_false. intros [Hne Hrest].
  destruct (decide (k' = k)); [contradiction|]. now rewrite IH.
Qed.

Lemma map_set_keys k v (m : LinksMap) :
  map_has k m = true -> (map_set k v m).*1 = m.*1.
Proof.
  unfold map_has. induction m as [|[k' v'] m IH]; simpl; [discriminate|].
  destruct (decide (k' = k)) as [->|Hne]; [reflexivity|].
  rewrite bool_decide_eq_false_2 by exact Hne. simpl orb.
  intros H. rewrite !fmap_cons. f_equal. now apply IH.
Qed.

Lemma map_set_own_key k v (m : LinksMap) :
  k = LinkItem.key v ->
  Forall (fun kv => kv.1 = LinkItem.key kv.2) m ->
  Forall (fun kv => kv.1 = LinkItem.key kv.2) (map_set k v m).
Proof.
  intros Hk. induction 1 as [|[k' v'] m Hkv Hm IH]; simpl.
  - now repeat constructor.
  - destruct (decide (k' = k)); constructor; auto.
Qed.

Lemma map_get_set k v (m : LinksMap) k' :
  map_get k' (map_set k v m)
  = if decide (k = k') then Some v else map_get k' m.
Proof.
  induction m as [|[k0 v0] m IH]; simpl.
  - reflexivity.
  - destruct (decide (k0 = k)) as [->|Hne]; simpl.
    + now destruct (decide (k = k')).
    + rewrite IH. destruct (decide (k0 = k')) as [->|]; [|reflexivity].
      now rewrite decide_False.
Qed.

Lemma well_keyed_set (link : LinkItem.t) (m : LinksMap) :
  well_keyed m -> well_keyed (map_set (LinkItem.key link) link m).
Proof.
  intros [Hnodup Hown]. split; [|now apply map_set_own_key].
  destruct (map_has (LinkItem.key link) m) eqn:Hhas.
  - now rewrite map_set_keys.
  - rewrite map_set_new by exact Hhas. rewrite fmap_app. simpl.
    apply NoDup_app. split; [exact Hnodup|]. split; [|apply NoDup_singleton].
    intros k Hk ->%list_elem_of_singleton.
    apply map_has_keys in Hk. congruence.
Qed.

Lemma well_keyed_set_all links (m : LinksMap) :
  well_keyed m -> well_keyed (set_all links m).
Proof.
  revert m. unfold set_all.
  induction links as [|link links IH]; intros m Hm; simpl; [exact Hm|].
  now apply IH, well_keyed_set.
Qed.

Lemma well_keyed_add_missing links (m : LinksMap) :
  well_keyed m -> well_keyed (add_missing links m).
Proof.
  revert m. unfold add_missing.
  induction links as [|link links IH]; intros m Hm; simpl; [exact Hm|].
  apply IH. destruct (map_has _ m); [exact Hm | now apply well_keyed_set].
Qed.

(** The list never shows a key twice: whatever the answer of the links
    endpoint, fetched again or appended, the entries of the map keep distinct
    keys, each link under its own key, so the links of the rendered array
    have distinct keys. *)
Theorem after_fetch_keeps_keys_distinct p st :
  well_keyed (linksMap st) ->
  well_keyed (linksMap (after_fetch p st))
  /\ NoDup (LinkItem.key <$> linksArray (after_fetch p st)).
Proof.
  intros Hm.
  assert (Hafter : well_keyed (linksMap (after_fetch p st))).
  { unfold after_fetch. destruct (reloads st); simpl.
    - apply well_keyed_set_all. split; constructor.
    - now apply well_keyed_add_missing. }
  split; [exact Hafter|]. destruct Hafter as [Hnodup Hown].
  unfold linksArray.
  replace (LinkItem.key <$> (linksMap (after_fetch p st)).*2)
    with ((linksMap (after_fetch p st)).*1); [exact Hnodup|].
  clear -Hown. induction Hown as [|[k v] m Hkv _ IH]; [reflexivity|].
  rewrite !fmap_cons. cbn [fst snd] in *. now rewrite IH, Hkv.
Qed.

Lemma add_missing_appends links (m : LinksMap) :
  exists added,
    add_missing links m = m ++ added
    /\ Forall (fun kv => kv.2 ∈ links /\ kv.1 = LinkItem.key kv.2
                         /\ map_has kv.1 m = false) added.
Proof.
  revert m. unfold add_missing.
  induction links as [|link links IH]; intros m; simpl.
  - exists []. now rewrite app_nil_r.
  - destruct (map_has (LinkItem.key link) m) eqn:Hhas.
    + destruct (IH m) as (added & -> & Hadded). exists added.
      split; [reflexivity|].
      eapply Forall_impl; [exact Hadded|]. intros kv (Hin & Hk & Hnew).
      split; [now apply list_elem_of_further | now split].
    + rewrite map_set_new by exact Hhas.
      destruct (IH (m ++ [(LinkItem.key link, link)])) as (added & -> & Hadded).
      exists ((LinkItem.key link, link) :: added). rewrite <- app_assoc.
      split; [reflexivity|]. constructor.
      * simpl. split; [apply list_elem_of_here | now split].
      * eapply Forall_impl; [exact Hadded|]. intros kv (Hin & Hk & Hnew).
        split; [now apply list_elem_of_further|]. split; [exact Hk|].
        rewrite map_has_app in Hnew. now apply orb_false_iff in Hnew as [? _].
Qed.

Lemma add_missing_has links (m : LinksMap) link :
  link ∈ links -> map_has (LinkItem.key link) (add_missing links m) = true.
Proof.
  revert m. unfold add_missing.
  induction links as [|l links IH]; intros m Hin; simpl.
  - now apply elem_of_nil in Hin.
  - apply elem_of_cons in Hin as [->|Hin]; [|now apply IH].
    match goal with
    | |- map_has _ (fold_left ?f links ?m0) = true =>
        destruct (add_missing_appends links m0) as (added & Heq & _);
        unfold add_missing in Heq; rewrite Heq;
        assert (Hhas : map_has (LinkItem.key l) m0 = true)
    end.
    { destruct (map_has (LinkItem.key l) m) eqn:Hhas; [exact Hhas|].
      rewrite map_set_new by exact Hhas. rewrite map_has_app. simpl.
      rewrite bool_decide_eq_true_2 by reflexivity. apply orb_true_r. }
    rewrite map_has_app, Hhas. reflexivity.
Qed.

(** Loading a further page only appends: the links already shown stay as
    they are, in their place, also when the page brings one of them again in
    another state; the added entries are links of the page whose key was not
    shown yet, and afterwards every link of the page has its key in the
    list. *)
Theorem after_fetch_appends p st :
  reloads st = false ->
  (exists added,
      linksMap (after_fetch p st) = linksMap st ++ added
      /\ Forall (fun kv => kv.2 ∈ data p /\ kv.1 = LinkItem.key kv.2
                           /\ map_has kv.1 (linksMap st) = false) added)
  /\ (forall link, link ∈ data p ->
        map_has (LinkItem.key link) (linksMap (after_fetch p st)) = true)
  /\ page (after_fetch p st) = page st
  /\ total (after_fetch p st) = data_total p.
Proof.
  intros Hreload. unfold after_fetch. rewrite Hreload. simpl.
  split; [apply add_missing_appends|]. split; [|now split].
  intros link. apply add_missing_has.
Qed.

Lemma find_app_first {A} (f : A -> bool) (l1 l2 : list A) :
  List.find f (l1 ++ l2)
  = match List.find f l1 with
    | Some x => Some x
    | None => List.find f l2
    end.
Proof.
  induction l1 as [|x l1 IH]; simpl; [reflexivity|].
  now destruct (f x).
Qed.

Lemma map_get_set_all links (m : LinksMap) k :
  map_get k (set_all links m)
  = match List.find (fun l => bool_decide (LinkItem.key l = k)) (rev links) with
    | Some l => Some l
    | None => map_get k m
    end.
Proof.
  revert m. unfold set_all.
  induction links as [|link links IH]; intros m; simpl; [reflexivity|].
  rewrite IH, find_app_first, map_get_set.
  destruct (List.find _ (rev links)); [reflexivity|]. simpl.
  destruct (decide (LinkItem.key link = k)) as [Hk|Hk].
  - now rewrite bool_decide_eq_true_2.
  - now rewrite bool_decide_eq_false_2.
Qed.

(** Loading the list again (after a change, or for a filter on its first
    page) replaces it: whatever was shown, a key is then looked up to the
    last link of the answer that has it, and to nothing when the answer has
    none; the request for a reload is reset. *)
Theorem after_fetch_reloads p st :
  reloads st = true ->
  (forall k,
      map_get k (linksMap (after_fetch p st))
      = List.find (fun l => bool_decide (LinkItem.key l = k)) (rev (data p)))
  /\ refetch (after_fetch p st) = 0
  /\ total (after_fetch p st) = data_total p.
Proof.
  intros Hreload. unfold after_fetch. rewrite Hreload. simpl.
  split; [|now split]. intros k. rewrite map_get_set_all.
  now destruct (List.find _ _).
Qed.

(** Scrolling asks for the next page only when there is one: [checkScroll]
    leaves the page number or adds one to it, and it adds one only at the
    bottom of the container and when the new page still has a link to show,
    that is, when fewer links come before it than there are in all. *)
Theorem checkScroll_stays_within_pages scrollTop clientHeight scrollHeight st :
  0 < limit st ->
  let st' := checkScroll scrollTop clientHeight scrollHeight st in
  (st' = st
   \/ (page st' = page st + 1
       /\ (page st' - 1) * limit st < total st
       /\ scrollHeight - 120 <= scrollTop + clientHeight))
  /\ linksMap st' = linksMap st
  /\ (page st <= Z.max 1 (maxPages st) -> page st' <= Z.max 1 (maxPages st')).
Proof.
  intros Hlimit. unfold checkScroll.
  destruct (bool_decide (maxPages st = 0)) eqn:Hzero; simpl.
  { split; [now left|]. split; [reflexivity | auto]. }
  destruct (Z.ltb_spec (maxPages st - 1) (page st)) as [Hlast|Hmore]; simpl.
  { split; [now left|]. split; [reflexivity | auto]. }
  destruct (Z.ltb_spec (scrollTop + clientHeight) (scrollHeight - 120))
    as [Habove|Hbottom]; simpl.
  { split; [now left|]. split; [reflexivity | auto]. }
  assert (Hceil : limit st * maxPages st <= total st + limit st - 1)
    by (unfold maxPages; apply Z.mul_div_le; exact Hlimit).
  split; [|split; [reflexivity|]].
  - right. split; [reflexivity|]. split; [nia | exact Hbottom].
  - intros _. unfold maxPages in *. simpl. lia.
Qed.

End LinksViewProperties.

Section LinksViewWitnesses.
Import LinksView MoreFixtures.
Local Open Scope Z_scope.

Lemma links_state0_well_keyed : well_keyed (linksMap links_state0).
Proof.
  split.
  - simpl. apply NoDup_cons. split.
    + intros H%list_elem_of_singleton. discriminate H.
    + apply NoDup_singleton.
  - now repeat constructor.
Defined.

Lemma after_fetch_keeps_keys_distinct_witness :
  NoDup (LinkItem.key <$> linksArray (after_fetch page2 links_state0)).
Proof.
  exact (proj2 (after_fetch_keeps_keys_distinct page2 links_state0
                                                links_state0_well_keyed)).
Defined.

Lemma after_fetch_appends_witness :
  exists added,
    linksMap (after_fetch page2 links_state0)
    = linksMap links_state0 ++ added
    /\ Forall (fun kv => kv.2 ∈ data page2 /\ kv.1 = LinkItem.key kv.2
                         /\ map_has kv.1 (linksMap links_state0) = false)
              added.
Proof.
  exact (proj1 (after_fetch_appends page2 links_state0 eq_refl)).
Defined.

Lemma after_fetch_reloads_witness :
  map_get "bobs"
          (linksMap (after_fetch page2
                       (mkState 1 10 25 "" 1 true (linksMap links_state0))))
  = Some (item "id-2b" "bobs" "https://example.org/changed").
Proof.
  exact (proj1 (after_fetch_reloads
                  page2 (mkState 1 10 25 "" 1 true (linksMap links_state0))
                  eq_refl)
               "bobs").
Defined.

Lemma checkScroll_stays_within_pages_witness :
  page (checkScroll 900 300 1300 links_state0) <= Z.max 1 (maxPages links_state0).
Proof.
  refine (proj2 (proj2 (checkScroll_stays_within_pages 900 300 1300
                                                       links_state0 _)) _).
  - reflexivity.
  - vm_compute. discriminate.
Defined.

End LinksViewWitnesses.

(** ** From an uploaded sheet to the created links *)

Section Upload.
Import Shortener LinksView.
Context {E ClientDetails Cell : Type}.

Lemma bulk_body_items (urls : list string) dto :
  dto ∈ bulk_body urls ->
  exists url,
    url ∈ urls
    /\ dto = ShortenerDto.mk url None None None None None None None None None
                             None None.
Proof.
  unfold bulk_body. intros Hin%list_elem_of_In%in_map_iff.
  destruct Hin as (url & <- & Hin). exists url. split; [|reflexivity].
  now apply list_elem_of_In.
Qed.

Lemma mappedData_urls (isValidUrl : option Cell -> bool)
    (normalizeUrl : option Cell -> string) rows url :
  url ∈ mappedData isValidUrl normalizeUrl rows ->
  exists row,
    row ∈ rows /\ isValidUrl (first_cell row) = true
    /\ url = normalizeUrl (first_cell row).
Proof.
  unfold mappedData. intros Hin%list_elem_of_In%in_map_iff.
  destruct Hin as (cell & <- & Hin%filter_In). destruct Hin as [Hin Hvalid].
  apply in_map_iff in Hin as (row & <- & Hin).
  exists row. split; [now apply list_elem_of_In | now split].
Qed.

(** The links that an uploaded sheet creates: the page sends one item for
    each row whose first cell is a valid url, at most as many as rows, and
    every link that [bulk] then creates is created from the normalized url
    of such a row alone, without key, password or temporary flag. *)
Theorem uploaded_links_have_url_only (isValidUrl : option Cell -> bool)
    (normalizeUrl : option Cell -> string) (rows : list (list Cell + Cell))
    (c : ShortenerController E ClientDetails) req w :
  (length (bulk_body (mappedData isValidUrl normalizeUrl rows))
   <= length rows)%nat
  /\ exists evs,
       trace (snd (bulk c (bulk_body (mappedData isValidUrl normalizeUrl rows))
                        req w))
       = trace w ++ evs
       /\ forall user dto,
            ECreateUsersShortenedUrl user dto ∈ evs ->
            ShortenerDto.key dto = None
            /\ ShortenerDto.password dto = None
            /\ ShortenerDto.temporary dto = None
            /\ exists row,
                 row ∈ rows /\ isValidUrl (first_cell row) = true
                 /\ ShortenerDto.url dto = normalizeUrl (first_cell row).
Proof.
  split.
  - unfold bulk_body, mappedData. rewrite !length_map.
    etransitivity; [apply filter_length_le|]. now rewrite length_map.
  - destruct (bulk_events c (bulk_body (mappedData isValidUrl normalizeUrl rows))
                          req w) as (evs & Htrace & Hallowed).
    exists evs. split; [exact Htrace|]. intros user dto Hin.
    rewrite Forall_forall in Hallowed.
    destruct (Hallowed _ Hin) as [_ Hdto].
    apply bulk_body_items in Hdto as (url & Hurl & ->). simpl.
    repeat split. now apply mappedData_urls in Hurl.
Qed.

End Upload.

(** ** [debounce] *)

Section DebounceProperties.
Import Debounce.
Context {Args : Type}.
Implicit Types (st : State Args) (evs : list (Event Args)).

Lemma run_app evs1 evs2 st : run (evs1 ++ evs2) st = run evs2 (run evs1 st).
Proof. unfold run. apply fold_left_app. Qed.

Lemma invoked_calls (calls : list Args) st :
  invoked (run (map Call calls) st) = invoked st.
Proof.
  revert st. induction calls as [|x calls IH]; intros st; [reflexivity|].
  change (invoked (run (map Call calls) (step st (Call x))) = invoked st).
  now rewrite IH.
Qed.

Lemma run_invokes evs st :
  exists new,
    invoked (run evs st) = invoked st ++ new
    /\ length new <= length (List.filter is_fire evs)
    /\ Forall (fun x => Call x ∈ evs \/ timeoutId st = Some x) new.
Proof.
  revert st. induction evs as [|ev evs IH]; intros st.
  - exists []. simpl. rewrite app_nil_r. repeat split; [lia | constructor].
  - change (run (ev :: evs) st) with (run evs (step st ev)).
    destruct (IH (step st ev)) as (new & Hnew & Hlen & Hargs).
    destruct ev as [a|]; simpl in *.
    + exists new. split; [exact Hnew|]. split; [exact Hlen|].
      eapply Forall_impl; [exact Hargs|]. intros x [Hin|Hx].
      * left. now apply list_elem_of_further.
      * inversion Hx. left. apply list_elem_of_here.
    + destruct (timeoutId st) as [a|] eqn:Hpending; simpl in *.
      * exists (a :: new). rewrite Hnew, <- app_assoc.
        split; [reflexivity|]. split; [simpl; lia|].
        constructor; [now right|].
        eapply Forall_impl; [exact Hargs|]. intros x [Hin|Hx];
          [left; now apply list_elem_of_further | discriminate Hx].
      * exists new. split; [exact Hnew|]. split; [lia|].
        eapply Forall_impl; [exact Hargs|]. intros x [Hin|Hx];
          [left; now apply list_elem_of_further | exfalso; congruence].
Qed.

(** A debounced function runs once for a burst of calls, with the arguments
    of the last call: after any number of calls and one more, the timer that
    fires calls [func] for that last call only and leaves no timer pending.
    In general [func] is called at most once for each timer that fires, and
    only with arguments of a call that was made. *)
Theorem debounce_runs_last_call_of_burst :
  (forall (calls : list Args) (a : Args) st,
      run (map Call (calls ++ [a]) ++ [Fire]) st
      = mkState None (invoked st ++ [a]))
  /\ (forall evs,
        exists new,
          invoked (run evs initial) = new
          /\ length new <= length (List.filter is_fire evs)
          /\ Forall (fun x => Call x ∈ evs) new).
Proof.
  split.
  - intros calls a st. rewrite run_app, map_app, run_app.
    change (mkState None
              (invoked (mkState (Some a) (invoked (run (map Call calls) st)))
               ++ [a])
            = mkState None (invoked st ++ [a])).
    simpl. now rewrite invoked_calls.
  - intros evs. destruct (run_invokes evs initial) as (new & Hnew & Hlen & Hargs).
    exists new. split; [exact Hnew|]. split; [exact Hlen|].
    eapply Forall_impl; [exact Hargs|]. intros x [Hin|Hx];
      [exact Hin | discriminate Hx].
Qed.

End DebounceProperties.
